(** * RF link planner: geodesy kernel, Fresnel ellipse sampler and tower/link store

    A shallow embedding of the two implementations shipped in the repository:

    - [src/src/App.js]       (module [App]):     exact frequency equality,
                                                  shrunken ellipse axes;
    - [src/unnamed/part_000] (module [Part000]): tolerance-based frequency
                                                  equality, unscaled axes.

    JavaScript numbers are IEEE-754 binary64 values; they are modelled by the
    Standard Library's [spec_float] at precision 53 / emax 1024, so that NaN,
    signed zeros, infinities and rounding behave as in the program.  The
    functions of the [Math] object whose accuracy ECMAScript leaves to the
    implementation ([sin], [cos], [asin], [atan2]) are an interface
    ([MathLib]); one executable instance ([RefMath]) is provided.

    A string is a sequence of 8-bit characters, each standing for the
    UTF-16 code unit of the same number (U+0000 to U+00FF); on these,
    [trim], [toLowerCase] and [parseFloat] are modelled as ECMAScript
    defines them.  Texts with code units above U+00FF are not represented.
    React state is an explicit
    record ([store]); every handler is a function on that record, run on the
    state of the latest render. *)

From Stdlib Require Import ZArith List Bool String Ascii Lia Arith.
From Stdlib Require Import Floats.SpecFloat.
Import ListNotations.

Set Implicit Arguments.

(* ================================================================== *)
(** * JavaScript numbers *)
(* ================================================================== *)

Module JsNumber.

Definition num : Type := spec_float.

Definition prec : Z := 53.
Definition emax : Z := 1024.

Definition NaN : num := S754_nan.
Definition Infinity : num := S754_infinity false.
Definition pzero : num := S754_zero false.

Definition add : num -> num -> num := SFadd prec emax.
Definition sub : num -> num -> num := SFsub prec emax.
Definition mul : num -> num -> num := SFmul prec emax.
Definition div : num -> num -> num := SFdiv prec emax.
Definition sqrt : num -> num := SFsqrt prec emax.
Definition abs : num -> num := SFabs.
Definition opp : num -> num := SFopp.

(** [a === b], [a < b], [a <= b] on numbers; all false on NaN. *)
Definition eqb : num -> num -> bool := SFeqb.
Definition ltb : num -> num -> bool := SFltb.
Definition leb : num -> num -> bool := SFleb.
(** [a !== b], [a > b], [a >= b]. *)
Definition neqb (a b : num) : bool := negb (eqb a b).
Definition gtb (a b : num) : bool := ltb b a.
Definition geb (a b : num) : bool := leb b a.

Definition isNaN (x : num) : bool :=
  match x with S754_nan => true | _ => false end.

(** The sign bit; NaN carries none. *)
Definition signbit (x : num) : bool :=
  match x with
  | S754_zero s | S754_infinity s | S754_finite s _ _ => s
  | S754_nan => false
  end.

Definition isFinite (x : num) : bool :=
  match x with S754_nan | S754_infinity _ => false | _ => true end.

(** [Math.max(a, b)]: NaN if either is NaN, and [+0] is larger than [-0]. *)
Definition max (a b : num) : num :=
  match a, b with
  | S754_nan, _ | _, S754_nan => NaN
  | S754_zero true, S754_zero false => b
  | _, _ => if ltb a b then b else a
  end.

(** The [%] operator (Number::remainder): the result has the sign of the
    dividend and is computed exactly. *)
Definition rem (n d : num) : num :=
  match n, d with
  | S754_nan, _ | _, S754_nan => NaN
  | S754_infinity _, _ => NaN
  | _, S754_zero _ => NaN
  | _, S754_infinity _ => n
  | S754_zero _, _ => n
  | S754_finite sn mn en, S754_finite _ md ed =>
      let e := Z.min en ed in
      let a := (Zpos mn * 2 ^ (en - e))%Z in
      let b := (Zpos md * 2 ^ (ed - e))%Z in
      let r := (a mod b)%Z in
      if (r =? 0)%Z then S754_zero sn
      else binary_normalize prec emax (cond_Zopp sn r) e false
  end.

(** Integer and decimal literals, correctly rounded. *)
Definition of_Z (z : Z) : num := binary_normalize prec emax z 0 false.
Definition of_nat (n : nat) : num := of_Z (Z.of_nat n).

(** The number nearest to [(-1)^neg * m * 10^e], for [m >= 0]. *)
Definition of_decimal (neg : bool) (m : Z) (e : Z) : num :=
  match m with
  | Zpos p =>
      if (0 <=? e)%Z
      then binary_normalize prec emax (cond_Zopp neg (Zpos p * 10 ^ e)) 0 false
      else div (S754_finite neg p 0)
               (S754_finite false (Z.to_pos (10 ^ (- e))) 0)
  | _ => S754_zero neg
  end.

(** Literals of the program. *)
Definition c_1e9 : num := of_decimal false 1 9.
Definition c_1e6 : num := of_decimal false 1 6.
Definition c_1em6 : num := of_decimal false 1 (-6).
Definition c_3e8 : num := of_decimal false 3 8.
Definition c_1 : num := of_Z 1.
Definition c_2 : num := of_Z 2.
Definition c_50 : num := of_Z 50.
Definition c_90 : num := of_Z 90.
Definition c_180 : num := of_Z 180.
Definition c_360 : num := of_Z 360.
Definition c_2000 : num := of_Z 2000.
Definition c_R : num := of_Z 6371000.
(** [Math.PI], the binary64 number nearest to pi. *)
Definition PI : num := of_decimal false 3141592653589793 (-15).

(** Two infinities of the same sign. *)
Definition sameInfinity (a b : num) : bool :=
  match a, b with
  | S754_infinity sa, S754_infinity sb => Bool.eqb sa sb
  | _, _ => false
  end.

End JsNumber.

Declare Scope js_scope.
Delimit Scope js_scope with js.
Infix "+" := JsNumber.add : js_scope.
Infix "-" := JsNumber.sub : js_scope.
Infix "*" := JsNumber.mul : js_scope.
Infix "/" := JsNumber.div : js_scope.
Infix "%%" := JsNumber.rem (at level 40, left associativity) : js_scope.
Infix "===" := JsNumber.eqb (at level 70, no associativity) : js_scope.
Infix "!==" := JsNumber.neqb (at level 70, no associativity) : js_scope.
Infix "<=?" := JsNumber.leb : js_scope.
Infix ">=?" := JsNumber.geb : js_scope.
Infix ">?" := JsNumber.gtb : js_scope.

(* ================================================================== *)
(** * JavaScript strings (code units below U+0100) *)
(* ================================================================== *)

Module JsString.
Import JsNumber.

Definition chars : Type := list ascii.

Definition of_string : string -> chars := list_ascii_of_string.

(** WhiteSpace and LineTerminator below U+0100: TAB, LF, VT, FF, CR, SP and
    the no-break space U+00A0. *)
Definition isWhite (c : ascii) : bool :=
  let n := nat_of_ascii c in
  ((9 <=? n) && (n <=? 13)) || (n =? 32) || (n =? 160).

Definition isDigit (c : ascii) : bool :=
  let n := nat_of_ascii c in (48 <=? n) && (n <=? 57).

Definition digitVal (c : ascii) : Z := Z.of_nat (nat_of_ascii c - 48).

(** The lower-case mapping below U+0100: A-Z, and the accented capitals
    U+00C0 to U+00DE except the multiplication sign U+00D7, map to the
    character 32 places on; every other character is its own image. *)
Definition lowerChar (c : ascii) : ascii :=
  let n := nat_of_ascii c in
  if ((65 <=? n) && (n <=? 90))
     || ((192 <=? n) && (n <=? 222) && negb (n =? 215))
  then ascii_of_nat (n + 32) else c.

Fixpoint trimStart (s : chars) : chars :=
  match s with
  | c :: r => if isWhite c then trimStart r else s
  | [] => []
  end.

Definition trimEnd (s : chars) : chars := rev (trimStart (rev s)).

Definition trim (s : chars) : chars := trimEnd (trimStart s).

Definition toLowerCase (s : chars) : chars := map lowerChar s.

Fixpoint startsWith (s p : chars) : bool :=
  match p, s with
  | [], _ => true
  | c :: p', d :: s' => Ascii.eqb c d && startsWith s' p'
  | _ :: _, [] => false
  end.

Definition endsWith (s suffix : chars) : bool :=
  startsWith (rev s) (rev suffix).

(** The longest run of decimal digits at the head of [s], and the rest. *)
Fixpoint spanDigits (s : chars) : chars * chars :=
  match s with
  | c :: r =>
      if isDigit c then let (ds, r') := spanDigits r in (c :: ds, r')
      else ([], s)
  | [] => ([], [])
  end.

Definition digitsVal (ds : chars) : Z :=
  fold_left (fun acc c => (10 * acc + digitVal c)%Z) ds 0%Z.

(** ExponentPart: [e] or [E], an optional sign and at least one digit;
    anything else is not part of the literal and counts as exponent 0. *)
Definition exponentPart (s : chars) : Z :=
  match s with
  | c :: r =>
      if Ascii.eqb c "e" || Ascii.eqb c "E" then
        let '(neg, r') :=
          match r with
          | d :: r'' =>
              if Ascii.eqb d "-" then (true, r'')
              else if Ascii.eqb d "+" then (false, r'')
              else (false, r)
          | [] => (false, r)
          end in
        let (ds, _) := spanDigits r' in
        match ds with
        | [] => 0%Z
        | _ => if neg then (- digitsVal ds)%Z else digitsVal ds
        end
      else 0%Z
  | [] => 0%Z
  end.

(** StrUnsignedDecimalLiteral, longest prefix. *)
Definition unsignedLiteral (neg : bool) (s : chars) : num :=
  if startsWith s (of_string "Infinity") then S754_infinity neg
  else
    let (ip, r1) := spanDigits s in
    let '(fp, r2) :=
      match r1 with
      | c :: r =>
          if Ascii.eqb c "." then
            let (fp, r2) := spanDigits r in
            match ip, fp with
            | [], [] => ([], r1)
            | _, _ => (fp, r2)
            end
          else ([], r1)
      | [] => ([], r1)
      end in
    match ip, fp with
    | [], [] => NaN
    | _, _ =>
        of_decimal neg (digitsVal (ip ++ fp)%list)
                   (exponentPart r2 - Z.of_nat (List.length fp))
    end.

(** [parseFloat]: leading white space is skipped, the longest prefix that
    is a decimal literal is converted, trailing characters are ignored, and
    NaN is returned when there is no such prefix. *)
Definition parseFloat (s : chars) : num :=
  match trimStart s with
  | c :: r =>
      if Ascii.eqb c "-" then unsignedLiteral true r
      else if Ascii.eqb c "+" then unsignedLiteral false r
      else unsignedLiteral false (c :: r)
  | [] => NaN
  end.

End JsString.

(* ================================================================== *)
(** * Helpers of both implementations *)
(* ================================================================== *)

Import JsNumber JsString.
Local Open Scope js_scope.

(** [parseFreqHz] (App.js 27-36, part_000 27-36; identical). *)
Definition parseFreqHz (freq : string) : num :=
  match freq with
  | EmptyString => NaN
  | _ =>
      let s := toLowerCase (trim (of_string freq)) in
      if endsWith s (of_string "ghz") then parseFloat s * c_1e9
      else if endsWith s (of_string "mhz") then parseFloat s * c_1e6
      else if endsWith s (of_string "hz") then parseFloat s
      else
        let n := parseFloat s in
        if isNaN n then NaN
        else if n >=? c_1 then n * c_1e9 else n * c_1e6
  end.

(** [fresnelRadius] (App.js 66-69, part_000 71-74; identical). *)
Definition fresnelRadius (lambda d1 d2 : num) : num :=
  if d1 + d2 === pzero then pzero
  else sqrt ((lambda * d1 * d2) / (d1 + d2)).


(* ================================================================== *)
(** * The [Math] object *)
(* ================================================================== *)

(** ECMAScript fixes [Math.sqrt], [Math.abs] and [Math.max] exactly (they are
    in [JsNumber]); the functions below are "implementation-approximated". *)
Class MathLib : Type := {
  Math_sin : num -> num;
  Math_cos : num -> num;
  Math_asin : num -> num;
  Math_atan2 : num -> num -> num
}.

(** The values ECMAScript prescribes for every implementation
    (ECMA-262, Math.sin / Math.cos / Math.asin / Math.atan2) that the
    development relies on. *)
Class MathLaws (M : MathLib) : Prop := {
  sin_NaN : Math_sin NaN = NaN;
  sin_pzero : Math_sin pzero = pzero;
  cos_NaN : Math_cos NaN = NaN;
  asin_NaN : Math_asin NaN = NaN;
  atan2_NaN_l : forall x, Math_atan2 NaN x = NaN;
  atan2_NaN_r : forall y, Math_atan2 y NaN = NaN
}.

Module LatLng.
Record t : Type := mk { lat : num; lng : num }.
End LatLng.

Module LatLon.
Record t : Type := mk { lat : num; lon : num }.
End LatLon.

Section Geodesy.
Context {M : MathLib}.

(** [distanceMeters] (App.js 38-50, part_000 38-55). *)
Definition distanceMeters (a b : LatLng.t) : num :=
  let R := c_R in
  let x1 := (LatLng.lat a * PI) / c_180 in
  let x2 := (LatLng.lat b * PI) / c_180 in
  let dx := ((LatLng.lat b - LatLng.lat a) * PI) / c_180 in
  let dy := ((LatLng.lng b - LatLng.lng a) * PI) / c_180 in
  let s1 := Math_sin (dx / c_2) in
  let s2 := Math_sin (dy / c_2) in
  let aa := s1 * s1 + Math_cos x1 * Math_cos x2 * s2 * s2 in
  let c := c_2 * Math_atan2 (sqrt aa) (sqrt (c_1 - aa)) in
  R * c.

(** [bearingBetween] (App.js 52-64, part_000 57-69). *)
Definition bearingBetween (a b : LatLng.t) : num :=
  let x1 := (LatLng.lat a * PI) / c_180 in
  let x2 := (LatLng.lat b * PI) / c_180 in
  let y1 := (LatLng.lng a * PI) / c_180 in
  let y2 := (LatLng.lng b * PI) / c_180 in
  let y := Math_sin (y2 - y1) * Math_cos x2 in
  let x := Math_cos x1 * Math_sin x2
           - Math_sin x1 * Math_cos x2 * Math_cos (y2 - y1) in
  ((Math_atan2 y x * c_180) / PI + c_360) %% c_360.

(** [computeSimpleFresnel] (App.js 71-76, part_000 76-81); the result is the
    pair [(totalDist, rMidMeters)]. *)
Definition computeSimpleFresnel (a b : LatLng.t) (freqHz : num) : num * num :=
  let d := distanceMeters a b in
  let lambda := c_3e8 / freqHz in
  let rMid := fresnelRadius lambda (d / c_2) (d / c_2) in
  (d, rMid).

(** [destPoint], the helper local to [generateFresnelEllipse]
    (App.js 83-103, part_000 92-117). *)
Definition destPoint (lat lon bearingDeg distance : num) : LatLon.t :=
  let R := c_R in
  let b := (bearingDeg * PI) / c_180 in
  let x1 := (lat * PI) / c_180 in
  let y1 := (lon * PI) / c_180 in
  let d := distance / R in
  let x2 := Math_asin (Math_sin x1 * Math_cos d
                       + Math_cos x1 * Math_sin d * Math_cos b) in
  let y2 := y1 + Math_atan2 (Math_sin b * Math_sin d * Math_cos x1)
                            (Math_cos d - Math_sin x1 * Math_sin x2) in
  LatLon.mk ((x2 * c_180) / PI) ((y2 * c_180) / PI).

(** One emitted vertex: the body of the [for] loop, for sample index [i]. *)
Definition ellipsePoint (centerLat centerLon bearing semiMajor semiMinor : num)
    (steps i : nat) : num * num :=
  let theta := (of_nat i / of_nat steps) * c_2 * PI in
  let x := semiMajor * Math_cos theta in
  let y := semiMinor * Math_sin theta in
  let p1 := destPoint centerLat centerLon bearing x in
  let pFinal := destPoint (LatLon.lat p1) (LatLon.lon p1) (bearing + c_90) y in
  (LatLon.lat pFinal, LatLon.lon pFinal).

(** [for (let i = 0; i <= steps; i++) { ...; points.push(...) }], started at
    counter [i] with the array [points]; [fuel] bounds the iterations. *)
Fixpoint ellipseLoop (centerLat centerLon bearing semiMajor semiMinor : num)
    (steps fuel i : nat) (points : list (num * num)) : list (num * num) :=
  match fuel with
  | O => points
  | S fuel' =>
      if (i <=? steps)%nat then
        ellipseLoop centerLat centerLon bearing semiMajor semiMinor steps fuel'
          (S i)
          (points ++ [ellipsePoint centerLat centerLon bearing
                        semiMajor semiMinor steps i])%list
      else points
  end.

End Geodesy.

(** The optional parameter [steps = 180]. *)
Definition stepsOrDefault (steps : option nat) : nat :=
  match steps with Some n => n | None => 180%nat end.

(* ================================================================== *)
(** * Towers, links and the component state *)
(* ================================================================== *)

Module Tower.
Record t : Type := mk { id : nat; lat : num; lng : num; freqStr : string }.
(** A tower passed where a [{lat, lng}] object is expected. *)
Definition pos (x : t) : LatLng.t := LatLng.mk (lat x) (lng x).
End Tower.

(** The argument of [updateTower]: an object holding some of a tower's
    properties, merged by [{ ...t, ...patch }]. *)
Module Patch.
Record t : Type := mk {
  id : option nat; lat : option num; lng : option num; freqStr : option string
}.
Definition apply (x : Tower.t) (p : t) : Tower.t :=
  Tower.mk
    (match id p with Some v => v | None => Tower.id x end)
    (match lat p with Some v => v | None => Tower.lat x end)
    (match lng p with Some v => v | None => Tower.lng x end)
    (match freqStr p with Some v => v | None => Tower.freqStr x end).
(** [{ freqStr: value }], the only patch the interface sends. *)
Definition ofFreq (f : string) : t := mk None None None (Some f).
End Patch.

Module Fresnel.
Record t : Type := mk {
  polygonPoints : list (num * num);
  rMidMeters : num;
  distance : num;
  freq : string
}.
End Fresnel.

Module Link.
Record t : Type := mk {
  id : nat; aId : nat; bId : nat; freqStr : string;
  fresnel : option Fresnel.t
}.
End Link.

(** What a handler hands back to its caller. *)
Inductive jsval : Type :=
| JUndefined
| JString (s : string)
| JLink (l : Link.t).

(** The state of the [RFLinkPlanner] component: the five [useState] cells and
    the [linkId] ref. *)
Record store : Type := mkStore {
  towers : list Tower.t;
  links : list Link.t;
  selectedTower : option nat;
  selectedLink : option nat;
  message : string;
  linkId : nat
}.

Definition initialStore (msg : string) : store :=
  mkStore [] [] None None msg 1.

Definition setTowers (f : list Tower.t -> list Tower.t) (st : store) : store :=
  mkStore (f (towers st)) (links st) (selectedTower st) (selectedLink st)
          (message st) (linkId st).
Definition setLinks (f : list Link.t -> list Link.t) (st : store) : store :=
  mkStore (towers st) (f (links st)) (selectedTower st) (selectedLink st)
          (message st) (linkId st).
Definition setSelectedTower (v : option nat) (st : store) : store :=
  mkStore (towers st) (links st) v (selectedLink st) (message st) (linkId st).
Definition setSelectedLink (v : option nat) (st : store) : store :=
  mkStore (towers st) (links st) (selectedTower st) v (message st) (linkId st).
Definition setMessage (m : string) (st : store) : store :=
  mkStore (towers st) (links st) (selectedTower st) (selectedLink st) m
          (linkId st).
(** [linkId.current++]: the value read, and the state with the ref bumped. *)
Definition nextLinkId (st : store) : nat * store :=
  (linkId st,
   mkStore (towers st) (links st) (selectedTower st) (selectedLink st)
           (message st) (S (linkId st))).

(** [towers.find((t) => t.id === i)]. *)
Definition findTower (ts : list Tower.t) (i : nat) : option Tower.t :=
  find (fun t => Tower.id t =? i)%nat ts.

(** [.filter(Boolean)] on an array of links and [null]s. *)
Fixpoint filterBoolean (l : list (option Link.t)) : list Link.t :=
  match l with
  | Some x :: r => x :: filterBoolean r
  | None :: r => filterBoolean r
  | [] => []
  end.

Section LinkGraph.

(** The two implementations differ in the frequency tests only:
    [mismatchOnCreate a b] is the condition under which [createLink] reports
    "Frequencies do not match", [mismatchOnUpdate a b] the one under which
    [updateTower] maps a link to [null]. *)
Variable mismatchOnCreate : Tower.t -> Tower.t -> bool.
Variable mismatchOnUpdate : Tower.t -> Tower.t -> bool.

(** [addTower] (App.js 165-170, part_000 178-187). *)
Definition newTowerId (prev : list Tower.t) : nat :=
  match prev with
  | [] => 1
  | _ => list_max (map Tower.id prev) + 1
  end.

Definition addTower (pos : LatLng.t) (st : store) : store :=
  setTowers (fun prev =>
    prev ++ [Tower.mk (newTowerId prev) (LatLng.lat pos) (LatLng.lng pos)
                      "5 GHz"]) st.

(** [updateTower] (App.js 173-195, part_000 190-222). *)
Definition patched (id : nat) (patch : Patch.t) (prev : list Tower.t)
  : list Tower.t :=
  map (fun t => if (Tower.id t =? id)%nat then Patch.apply t patch else t) prev.

Definition revalidate (updated : list Tower.t) (lnk : Link.t) : option Link.t :=
  match findTower updated (Link.aId lnk), findTower updated (Link.bId lnk) with
  | Some a, Some b => if mismatchOnUpdate a b then None else Some lnk
  | _, _ => None
  end.

Definition updateTower (id : nat) (patch : Patch.t) (st : store) : store :=
  let updated := patched id patch (towers st) in
  let st1 := setLinks (fun prevLinks =>
               filterBoolean (map (revalidate updated) prevLinks)) st in
  let st2 := setTowers (fun _ => updated) st1 in
  setSelectedLink None st2.

(** [removeTower] (App.js 198-202, part_000 225-229). *)
Definition removeTower (id : nat) (st : store) : store :=
  let st1 := setTowers (filter (fun t => negb (Tower.id t =? id)%nat)) st in
  let st2 := setLinks (filter (fun l =>
               negb (Link.aId l =? id)%nat && negb (Link.bId l =? id)%nat)) st1 in
  setSelectedTower None st2.

(** [links.some(...)]: a link over the same unordered pair. *)
Definition samePair (aId bId : nat) (l : Link.t) : bool :=
  ((Link.aId l =? aId)%nat && (Link.bId l =? bId)%nat)
  || ((Link.aId l =? bId)%nat && (Link.bId l =? aId)%nat).

(** [createLink] (App.js 205-226, part_000 239-263): every [return] is a bare
    [return;] and the function ends without one, so the value handed back is
    always [undefined]. *)
Definition createLink (aId bId : nat) (st : store) : jsval * store :=
  if (aId =? bId)%nat then (JUndefined, st)
  else
    match findTower (towers st) aId, findTower (towers st) bId with
    | Some a, Some b =>
        if mismatchOnCreate a b then
          (JUndefined, setMessage "Frequencies do not match" st)
        else if existsb (samePair aId bId) (links st) then
          (JUndefined, setMessage "Link already exists" st)
        else
          let (id, st1) := nextLinkId st in
          (JUndefined,
           setLinks (fun prev =>
             prev ++ [Link.mk id aId bId (Tower.freqStr a) None]) st1)
    | _, _ => (JUndefined, st)
    end.

(** [removeLink] (part_000 266-269). *)
Definition removeLink (id : nat) (st : store) : store :=
  setSelectedLink None
    (setLinks (filter (fun l => negb (Link.id l =? id)%nat)) st).

End LinkGraph.

(* ================================================================== *)
(** * src/src/App.js *)
(* ================================================================== *)

Module App.

Definition SCALE_FACTOR : num := c_1.

(** The test of [createLink] (line 212) and of [updateTower] (line 184):
    [parseFreqHz(a.freqStr) !== parseFreqHz(b.freqStr)]. *)
Definition freqDiffers (a b : Tower.t) : bool :=
  parseFreqHz (Tower.freqStr a) !== parseFreqHz (Tower.freqStr b).

Definition addTower := addTower.
Definition updateTower := updateTower freqDiffers.
Definition removeTower := removeTower.
Definition createLink := createLink freqDiffers.
(** App.js defines no [removeLink]; the only use of that name is in a button
    handler of the link list. *)

(** The axes of the ellipse (lines 112-113, "FIX #1"). *)
Definition semiMajor (totalDist : num) : num := (totalDist / c_2) / c_2000.
Definition semiMinor (rMid : num) : num := rMid / c_50.

(** [generateFresnelEllipse] (lines 79-135). *)
Definition generateFresnelEllipse {M : MathLib}
    (lat1 lon1 lat2 lon2 rMid : num) (steps : option nat) : list (num * num) :=
  let steps := stepsOrDefault steps in
  let totalDist :=
    distanceMeters (LatLng.mk lat1 lon1) (LatLng.mk lat2 lon2) in
  let semiMajor := semiMajor totalDist in
  let semiMinor := semiMinor rMid in
  let bearing := bearingBetween (LatLng.mk lat1 lon1) (LatLng.mk lat2 lon2) in
  let centerLat := (lat1 + lat2) / c_2 in
  let centerLon := (lon1 + lon2) / c_2 in
  ellipseLoop centerLat centerLon bearing semiMajor semiMinor steps
    (S (S steps)) 0 [].

(** [onLinkClick] (lines 229-263). *)
Definition onLinkClick {M : MathLib} (l : Link.t) (st : store) : store :=
  let st1 := setSelectedLink (Some (Link.id l)) st in
  match findTower (towers st) (Link.aId l),
        findTower (towers st) (Link.bId l) with
  | Some a, Some b =>
      let freqHz := parseFreqHz (Link.freqStr l) in
      let fresnelInfo := computeSimpleFresnel (Tower.pos a) (Tower.pos b) freqHz in
      let pts := generateFresnelEllipse (Tower.lat a) (Tower.lng a)
                   (Tower.lat b) (Tower.lng b)
                   (snd fresnelInfo * SCALE_FACTOR) None in
      setLinks (map (fun x =>
        if (Link.id x =? Link.id l)%nat then
          Link.mk (Link.id x) (Link.aId x) (Link.bId x) (Link.freqStr x)
            (Some (Fresnel.mk pts (snd fresnelInfo) (fst fresnelInfo)
                              (Link.freqStr l)))
        else x)) st1
  | _, _ => st1
  end.

(** The states the interface can reach: map clicks add towers, the frequency
    input sends [{ freqStr }] patches, the buttons remove towers, marker
    clicks create links, link clicks attach the Fresnel data, and selection
    and message change freely. *)
Inductive reachable {M : MathLib} : store -> Prop :=
| reach_init : forall msg, reachable (initialStore msg)
| reach_addTower : forall st pos,
    reachable st -> reachable (addTower pos st)
| reach_updateTower : forall st id f,
    reachable st -> reachable (updateTower id (Patch.ofFreq f) st)
| reach_removeTower : forall st id,
    reachable st -> reachable (removeTower id st)
| reach_createLink : forall st aId bId,
    reachable st -> reachable (snd (createLink aId bId st))
| reach_onLinkClick : forall st l,
    reachable st -> In l (links st) -> reachable (onLinkClick l st)
| reach_display : forall st t l m,
    reachable st ->
    reachable (setMessage m (setSelectedLink l (setSelectedTower t st))).

End App.

(* ================================================================== *)
(** * src/unnamed/part_000 *)
(* ================================================================== *)

Module Part000.

Definition SCALE_FACTOR : num := of_Z 400.

(** [canLink] (lines 232-237). *)
Definition canLink (a b : Tower.t) : bool :=
  let fa := parseFreqHz (Tower.freqStr a) in
  let fb := parseFreqHz (Tower.freqStr b) in
  if isNaN fa || isNaN fb then false
  else abs (fa - fb) <=? c_1em6 * max fa fb.

(** The condition of [updateTower] under which a link becomes [null]
    (lines 203-211). *)
Definition freqInvalid (a b : Tower.t) : bool :=
  let fa := parseFreqHz (Tower.freqStr a) in
  let fb := parseFreqHz (Tower.freqStr b) in
  isNaN fa || isNaN fb || (abs (fa - fb) >? c_1em6 * max fa fb).

Definition addTower := addTower.
Definition updateTower := updateTower freqInvalid.
Definition removeTower := removeTower.
Definition createLink := createLink (fun a b => negb (canLink a b)).
Definition removeLink := removeLink.

(** The axes of the ellipse (lines 121-122). *)
Definition semiMajor (d : num) : num := d / c_2.
Definition semiMinor (rMidMeters : num) : num := rMidMeters.

(** [generateFresnelEllipse] (lines 84-146). *)
Definition generateFresnelEllipse {M : MathLib}
    (lat1 lon1 lat2 lon2 rMidMeters : num) (steps : option nat)
  : list (num * num) :=
  let steps := stepsOrDefault steps in
  let d := distanceMeters (LatLng.mk lat1 lon1) (LatLng.mk lat2 lon2) in
  let semiMajor := semiMajor d in
  let semiMinor := semiMinor rMidMeters in
  let bearing := bearingBetween (LatLng.mk lat1 lon1) (LatLng.mk lat2 lon2) in
  let centerLat := (lat1 + lat2) / c_2 in
  let centerLon := (lon1 + lon2) / c_2 in
  ellipseLoop centerLat centerLon bearing semiMajor semiMinor steps
    (S (S steps)) 0 [].

(** [onLinkClick] (lines 272-308). *)
Definition onLinkClick {M : MathLib} (l : Link.t) (st : store) : store :=
  let st1 := setSelectedLink (Some (Link.id l)) st in
  match findTower (towers st) (Link.aId l),
        findTower (towers st) (Link.bId l) with
  | Some a, Some b =>
      let freqHz := parseFreqHz (Link.freqStr l) in
      let fresnelInfo := computeSimpleFresnel (Tower.pos a) (Tower.pos b) freqHz in
      let rMidScaled := snd fresnelInfo * SCALE_FACTOR in
      let pts := generateFresnelEllipse (Tower.lat a) (Tower.lng a)
                   (Tower.lat b) (Tower.lng b) rMidScaled (Some 180%nat) in
      setLinks (map (fun x =>
        if (Link.id x =? Link.id l)%nat then
          Link.mk (Link.id x) (Link.aId x) (Link.bId x) (Link.freqStr x)
            (Some (Fresnel.mk pts (snd fresnelInfo) (fst fresnelInfo)
                              (Link.freqStr l)))
        else x)) st1
  | _, _ => st1
  end.

(** The states the interface can reach (as for App.js, with [removeLink]). *)
Inductive reachable {M : MathLib} : store -> Prop :=
| reach_init : forall msg, reachable (initialStore msg)
| reach_addTower : forall st pos,
    reachable st -> reachable (addTower pos st)
| reach_updateTower : forall st id f,
    reachable st -> reachable (updateTower id (Patch.ofFreq f) st)
| reach_removeTower : forall st id,
    reachable st -> reachable (removeTower id st)
| reach_createLink : forall st aId bId,
    reachable st -> reachable (snd (createLink aId bId st))
| reach_removeLink : forall st id,
    reachable st -> reachable (removeLink id st)
| reach_onLinkClick : forall st l,
    reachable st -> In l (links st) -> reachable (onLinkClick l st)
| reach_display : forall st t l m,
    reachable st ->
    reachable (setMessage m (setSelectedLink l (setSelectedTower t st))).

End Part000.

(* ================================================================== *)
(** * A reference [Math] library *)
(* ================================================================== *)

(** An executable [MathLib]: argument reduction followed by Taylor
    polynomials, evaluated in binary64 arithmetic.  It meets the special
    values of [MathLaws]; like any engine's library it is an approximation. *)
Module RefMath.

(** The integer nearest to a finite number. *)
Definition roundToZ (x : num) : Z :=
  match x with
  | S754_finite s m e =>
      cond_Zopp s
        (if (0 <=? e)%Z then Zpos m * 2 ^ e
         else (Zpos m + 2 ^ (- e - 1)) / 2 ^ (- e))%Z
  | _ => 0%Z
  end.

Definition PIO2_hi : num := PI / c_2.
Definition PIO2_lo : num := of_decimal false 6123233995736766 (-32).

Fixpoint horner (cs : list num) (z : num) : num :=
  match cs with
  | [] => pzero
  | c :: r => c + z * horner r z
  end.

Definition reciprocals (ds : list Z) : list num :=
  map (fun d => c_1 / of_Z d) ds.

Definition sinCoeffs : list num :=
  reciprocals [1; -6; 120; -5040; 362880; -39916800; 6227020800;
               -1307674368000; 355687428096000]%Z.
Definition cosCoeffs : list num :=
  reciprocals [1; -2; 24; -720; 40320; -3628800; 479001600;
               -87178291200; 20922789888000]%Z.
Definition atanCoeffs : list num :=
  reciprocals [1; -3; 5; -7; 9; -11; 13; -15; 17; -19; 21; -23; 25]%Z.

Definition sinPoly (r : num) : num := r * horner sinCoeffs (r * r).
Definition cosPoly (r : num) : num := horner cosCoeffs (r * r).

(** [x = k * pi/2 + r] with [|r| <= pi/4]. *)
Definition reduce (x : num) : Z * num :=
  let k := roundToZ (x / PIO2_hi) in
  let kf := of_Z k in
  (k, (x - kf * PIO2_hi) - kf * PIO2_lo).

Definition sin (x : num) : num :=
  match x with
  | S754_nan | S754_infinity _ => NaN
  | S754_zero _ => x
  | S754_finite _ _ _ =>
      let (k, r) := reduce x in
      match (k mod 4)%Z with
      | 0%Z => sinPoly r
      | 1%Z => cosPoly r
      | 2%Z => opp (sinPoly r)
      | _ => opp (cosPoly r)
      end
  end.

Definition cos (x : num) : num :=
  match x with
  | S754_nan | S754_infinity _ => NaN
  | S754_zero _ => c_1
  | S754_finite _ _ _ =>
      let (k, r) := reduce x in
      match (k mod 4)%Z with
      | 0%Z => cosPoly r
      | 1%Z => opp (sinPoly r)
      | 2%Z => opp (cosPoly r)
      | _ => sinPoly r
      end
  end.

(** [atan] on [0, 1]: three angle halvings, then the series. *)
Definition halve (t : num) : num := t / (c_1 + sqrt (c_1 + t * t)).
Definition atanUnit (t : num) : num :=
  let u := halve (halve (halve t)) in
  of_Z 8 * (u * horner atanCoeffs (u * u)).

(** [atan] on [0, +Infinity]. *)
Definition atanPos (t : num) : num :=
  match t with
  | S754_infinity _ => PIO2_hi
  | _ => if t <=? c_1 then atanUnit t else PIO2_hi - atanUnit (c_1 / t)
  end.

Definition atan2 (y x : num) : num :=
  if isNaN y || isNaN x then NaN
  else
    let a :=
      match abs y, abs x with
      | S754_zero _, S754_zero _ => pzero
      | S754_infinity _, S754_infinity _ => PI / of_Z 4
      | ay, ax => atanPos (ay / ax)
      end in
    let a' := if signbit x then PI - a else a in
    if signbit y then opp a' else a'.

Definition asin (x : num) : num :=
  match x with
  | S754_nan => NaN
  | S754_zero _ => x
  | _ => if abs x >? c_1 then NaN
         else atan2 x (sqrt ((c_1 - x) * (c_1 + x)))
  end.

#[export] Instance lib : MathLib := {
  Math_sin := sin;
  Math_cos := cos;
  Math_asin := asin;
  Math_atan2 := atan2
}.

End RefMath.


(* ================================================================== *)
(** * Vocabulary of the statements *)
(* ================================================================== *)

(** The parsed frequency of a tower. *)
Definition towerFreq (t : Tower.t) : num := parseFreqHz (Tower.freqStr t).

(** "Equal within relative tolerance 1e-6 of the larger value", evaluated in
    binary64 arithmetic. *)
Definition withinTolerance (fa fb : num) : bool :=
  abs (fa - fb) <=? c_1em6 * max fa fb.


(** The link [l] joins the unordered pair [{aId, bId}]. *)
Definition joins (aId bId : nat) (l : Link.t) : Prop :=
  (Link.aId l = aId /\ Link.bId l = bId)
  \/ (Link.aId l = bId /\ Link.bId l = aId).

(** Both endpoints of [l] are towers of [ts] and pass the frequency test
    whose failure is [mismatch]. *)
Definition endpointsMatch (mismatch : Tower.t -> Tower.t -> bool)
    (ts : list Tower.t) (l : Link.t) : bool :=
  match findTower ts (Link.aId l), findTower ts (Link.bId l) with
  | Some a, Some b => negb (mismatch a b)
  | _, _ => false
  end.

(** The invariant of the store: tower ids are positive and pairwise
    distinct, and every link joins two existing towers whose frequencies
    pass the test. *)
Record wellFormed (mismatch : Tower.t -> Tower.t -> bool) (st : store)
  : Prop := mkWellFormed {
  wf_ids_unique : NoDup (map Tower.id (towers st));
  wf_ids_positive : Forall (fun t => 1 <= Tower.id t) (towers st);
  wf_links_valid :
    Forall (fun l => endpointsMatch mismatch (towers st) l = true) (links st)
}.

(** The store after [createLink aId bId] has added a link whose first
    endpoint is the tower [a]: the link is appended with the current value of
    the [linkId] ref, and the ref is incremented. *)
Definition withNewLink (st : store) (aId bId : nat) (a : Tower.t) : store :=
  mkStore (towers st)
          (links st ++ [Link.mk (linkId st) aId bId (Tower.freqStr a) None])
          (selectedTower st) (selectedLink st) (message st) (S (linkId st)).

(** The four situations in which [createLink aId bId] creates nothing. *)
Definition rejected (mismatch : Tower.t -> Tower.t -> bool) (st : store)
    (aId bId : nat) : Prop :=
  aId = bId
  \/ findTower (towers st) aId = None
  \/ findTower (towers st) bId = None
  \/ (exists a b, findTower (towers st) aId = Some a
                  /\ findTower (towers st) bId = Some b
                  /\ mismatch a b = true)
  \/ (exists l, In l (links st) /\ joins aId bId l).

(** What [createLink] does, case by case, for an implementation [create]
    whose frequency test fails when [mismatch] holds. *)
Definition createLink_outcomes (mismatch : Tower.t -> Tower.t -> bool)
    (create : nat -> nat -> store -> jsval * store) : Prop :=
  forall (st : store) (aId bId : nat),
    fst (create aId bId st) = JUndefined
    /\ (aId = bId -> snd (create aId bId st) = st)
    /\ (aId <> bId ->
        findTower (towers st) aId = None \/ findTower (towers st) bId = None ->
        snd (create aId bId st) = st)
    /\ (forall a b : Tower.t,
          aId <> bId ->
          findTower (towers st) aId = Some a ->
          findTower (towers st) bId = Some b ->
          (mismatch a b = true ->
           snd (create aId bId st) = setMessage "Frequencies do not match" st)
          /\ (mismatch a b = false ->
              (exists l, In l (links st) /\ joins aId bId l) ->
              snd (create aId bId st) = setMessage "Link already exists" st)
          /\ (mismatch a b = false ->
              (forall l, In l (links st) -> ~ joins aId bId l) ->
              snd (create aId bId st) = withNewLink st aId bId a)).

(** [createLink] changes towers, links and the link-id counter on the
    success path only. *)
Definition createLink_atomic (mismatch : Tower.t -> Tower.t -> bool)
    (create : nat -> nat -> store -> jsval * store) : Prop :=
  forall (st : store) (aId bId : nat),
    (rejected mismatch st aId bId ->
     towers (snd (create aId bId st)) = towers st
     /\ links (snd (create aId bId st)) = links st
     /\ linkId (snd (create aId bId st)) = linkId st)
    /\ (~ rejected mismatch st aId bId ->
        exists a, findTower (towers st) aId = Some a
                  /\ snd (create aId bId st) = withNewLink st aId bId a).

(** The effect of removing tower [id], from [st] to [st']: the id resolves to
    no tower, the other towers stay, and the links that stay are exactly
    those with neither endpoint [id]. *)
Definition towerRemoved (id : nat) (st st' : store) : Prop :=
  findTower (towers st') id = None
  /\ (forall t, In t (towers st') <-> In t (towers st) /\ Tower.id t <> id)
  /\ (forall l, In l (links st')
                <-> In l (links st) /\ Link.aId l <> id /\ Link.bId l <> id).

(** [create] decides on the frequencies of the two towers by the test [ok]:
    when it fails the call only reports the mismatch, when it passes the
    call goes on to the duplicate check and the creation. *)
Definition decidesCreation (ok : num -> num -> bool)
    (create : nat -> nat -> store -> jsval * store) : Prop :=
  forall (st : store) (aId bId : nat) (a b : Tower.t),
    aId <> bId ->
    findTower (towers st) aId = Some a ->
    findTower (towers st) bId = Some b ->
    (ok (towerFreq a) (towerFreq b) = false ->
     snd (create aId bId st) = setMessage "Frequencies do not match" st)
    /\ (ok (towerFreq a) (towerFreq b) = true ->
        snd (create aId bId st) = setMessage "Link already exists" st
        \/ snd (create aId bId st) = withNewLink st aId bId a).

(** [update] keeps an existing link exactly when the frequencies of its two
    endpoints, read after the patch, pass the test [ok]; pairs of
    frequencies for which [excluded] holds are left open. *)
Definition decidesRemoval (ok excluded : num -> num -> bool)
    (update : nat -> Patch.t -> store -> store) : Prop :=
  forall (st : store) (id : nat) (patch : Patch.t) (l : Link.t) (a b : Tower.t),
    In l (links st) ->
    findTower (towers (update id patch st)) (Link.aId l) = Some a ->
    findTower (towers (update id patch st)) (Link.bId l) = Some b ->
    excluded (towerFreq a) (towerFreq b) = false ->
    (In l (links (update id patch st))
     <-> ok (towerFreq a) (towerFreq b) = true).

Definition neverExcluded (fa fb : num) : bool := false.



(** The vertex of sample index [i] as the specification words it: the centre
    is the degree-wise mean of [a] and [b]; the centre is moved by
    [semiMajor * cos angle] along the bearing from [a] to [b], and the
    result by [semiMinor * sin angle] along that bearing plus 90 degrees,
    where [angle = (i / steps) * 2 * pi]. *)
Definition claimedPoint {M : MathLib} (a b : LatLng.t)
    (semiMajor semiMinor : num) (steps i : nat) : num * num :=
  let center := LatLng.mk ((LatLng.lat a + LatLng.lat b) / c_2)
                          ((LatLng.lng a + LatLng.lng b) / c_2) in
  let angle := (of_nat i / of_nat steps) * c_2 * PI in
  let p1 := destPoint (LatLng.lat center) (LatLng.lng center)
              (bearingBetween a b) (semiMajor * Math_cos angle) in
  let p := destPoint (LatLon.lat p1) (LatLon.lon p1)
             (bearingBetween a b + c_90) (semiMinor * Math_sin angle) in
  (LatLon.lat p, LatLon.lon p).




























(* ================================================================== *)
(** * Sample data *)
(* ================================================================== *)

Module Sample.

Definition pos1 : LatLng.t :=
  LatLng.mk (of_decimal false 225 (-1)) (of_decimal false 775 (-1)).
Definition pos2 : LatLng.t := LatLng.mk (of_Z 22) (of_Z 77).
Definition pos3 : LatLng.t := LatLng.mk (of_Z 23) (of_Z 78).

Definition empty : store := initialStore "Click map to add towers".

(** Two, then three towers at the default frequency. *)
Definition twoTowers : store := addTower pos2 (addTower pos1 empty).
Definition threeTowers : store := addTower pos3 twoTowers.

(** Towers 1 and 2 linked (App.js and part_000 agree on this run), then
    towers 2 and 3 linked as well. *)
Definition linked : store := snd (App.createLink 1 2 twoTowers).
Definition chain : store :=
  snd (App.createLink 2 3 (snd (App.createLink 1 2 threeTowers))).

(** Tower 2 retuned by one part in five million. *)
Definition detuned : store :=
  App.updateTower 2 (Patch.ofFreq "5.000001 GHz") twoTowers.

(** Towers 1 and 2 linked at 5 GHz in part_000, then both retuned to
    "1e999", which parses to [+Infinity]. *)
Definition bothInfinite : store :=
  Part000.updateTower 2 (Patch.ofFreq "1e999")
    (Part000.updateTower 1 (Patch.ofFreq "1e999")
       (snd (Part000.createLink 1 2 twoTowers))).


End Sample.

(* ================================================================== *)
(** * The marker click handler and runs of handlers *)
(* ================================================================== *)

(** The [click] handler of a tower marker (App.js 281-292, part_000
    324-335), for the tower [tid]; [create] is the file's [createLink].
    [!selectedTower] holds for [null] and for [0]. *)
Definition markerClick (create : nat -> nat -> store -> jsval * store)
    (tid : nat) (st : store) : store :=
  match selectedTower st with
  | None | Some O => setSelectedTower (Some tid) st
  | Some s =>
      if (s =? tid)%nat then setSelectedTower None st
      else setSelectedTower None (snd (create s tid st))
  end.

(** One call of a handler of App.js, as a function on the state. *)
Inductive App_handler {M : MathLib} : (store -> store) -> Prop :=
| App_h_addTower : forall pos, App_handler (App.addTower pos)
| App_h_updateTower : forall id f,
    App_handler (App.updateTower id (Patch.ofFreq f))
| App_h_removeTower : forall id, App_handler (App.removeTower id)
| App_h_createLink : forall aId bId,
    App_handler (fun st => snd (App.createLink aId bId st))
| App_h_onLinkClick : forall l, App_handler (App.onLinkClick l)
| App_h_markerClick : forall tid,
    App_handler (markerClick App.createLink tid)
| App_h_display : forall t l m,
    App_handler (fun st =>
      setMessage m (setSelectedLink l (setSelectedTower t st))).

(** One call of a handler of part_000. *)
Inductive Part000_handler {M : MathLib} : (store -> store) -> Prop :=
| Part000_h_addTower : forall pos, Part000_handler (Part000.addTower pos)
| Part000_h_updateTower : forall id f,
    Part000_handler (Part000.updateTower id (Patch.ofFreq f))
| Part000_h_removeTower : forall id, Part000_handler (Part000.removeTower id)
| Part000_h_createLink : forall aId bId,
    Part000_handler (fun st => snd (Part000.createLink aId bId st))
| Part000_h_removeLink : forall id, Part000_handler (Part000.removeLink id)
| Part000_h_onLinkClick : forall l, Part000_handler (Part000.onLinkClick l)
| Part000_h_markerClick : forall tid,
    Part000_handler (markerClick Part000.createLink tid)
| Part000_h_display : forall t l m,
    Part000_handler (fun st =>
      setMessage m (setSelectedLink l (setSelectedTower t st))).

(** [run handler st st']: [st'] is reached from [st] by calls of handlers. *)
Inductive run (handler : (store -> store) -> Prop) : store -> store -> Prop :=
| run_done : forall st, run handler st st
| run_call : forall st st' h,
    run handler st st' -> handler h -> run handler st (h st').

(** The invariant of the links: ids are pairwise distinct and below the
    [linkId] counter, no link joins a tower to itself, and no two links join
    the same unordered pair. *)
Record linksDistinct (st : store) : Prop := mkLinksDistinct {
  ld_ids_unique : NoDup (map Link.id (links st));
  ld_ids_below : Forall (fun l => Link.id l < linkId st) (links st);
  ld_no_self : Forall (fun l => Link.aId l <> Link.bId l) (links st);
  ld_one_per_pair :
    forall l1 l2, In l1 (links st) -> In l2 (links st) ->
                  joins (Link.aId l1) (Link.bId l1) l2 ->
                  Link.id l1 = Link.id l2
}.

(** [l'] is the link [l] up to its cached Fresnel data. *)
Definition sameLink (l l' : Link.t) : Prop :=
  Link.id l' = Link.id l /\ Link.aId l' = Link.aId l
  /\ Link.bId l' = Link.bId l /\ Link.freqStr l' = Link.freqStr l.

(** From [st] to [st'] the counter has not gone down, and every link of
    [st'] is a link of [st] (up to cached data) or carries an id the counter
    of [st] had not yet reached. *)
Definition issuesAbove (st st' : store) : Prop :=
  linkId st <= linkId st'
  /\ forall l', In l' (links st') ->
       (exists l, In l (links st) /\ sameLink l l')
       \/ linkId st <= Link.id l'.

(** The link [x] with the Fresnel data [f] cached on it when its id is
    [lid], as [onLinkClick] rewrites every link. *)
Definition withFresnel (f : Fresnel.t) (lid : nat) (x : Link.t) : Link.t :=
  if (Link.id x =? lid)%nat then
    Link.mk (Link.id x) (Link.aId x) (Link.bId x) (Link.freqStr x) (Some f)
  else x.

(** What a click on link [l] does to the store, for an implementation
    [click]: towers, counter, tower selection and message stay; [l] becomes
    the selected link; every link keeps its id, endpoints and frequency
    text, in order; links with another id are untouched; when both
    endpoints of [l] resolve, every link with the id of [l] carries data
    that [fresnelOk] accepts; and a second click changes nothing more. *)
Definition cachesFresnel (click : Link.t -> store -> store)
    (fresnelOk : Link.t -> Tower.t -> Tower.t -> Fresnel.t -> Prop) : Prop :=
  forall (l : Link.t) (st : store),
    towers (click l st) = towers st
    /\ linkId (click l st) = linkId st
    /\ selectedTower (click l st) = selectedTower st
    /\ message (click l st) = message st
    /\ selectedLink (click l st) = Some (Link.id l)
    /\ Forall2 sameLink (links st) (links (click l st))
    /\ (forall x, In x (links st) -> Link.id x <> Link.id l ->
                  In x (links (click l st)))
    /\ (forall a b x,
          findTower (towers st) (Link.aId l) = Some a ->
          findTower (towers st) (Link.bId l) = Some b ->
          In x (links (click l st)) -> Link.id x = Link.id l ->
          exists f, Link.fresnel x = Some f /\ fresnelOk l a b f)
    /\ (findTower (towers st) (Link.aId l) = None
        \/ findTower (towers st) (Link.bId l) = None ->
        links (click l st) = links st)
    /\ click l (click l st) = click l st.

(** The data cached for link [l] between towers [a] and [b]: a polygon of
    181 points, the great-circle distance, the midpoint radius for the
    frequency text of [l], and that text. *)
Definition fresnelFor {M : MathLib} (l : Link.t) (a b : Tower.t)
    (f : Fresnel.t) : Prop :=
  List.length (Fresnel.polygonPoints f) = 181
  /\ Fresnel.distance f = distanceMeters (Tower.pos a) (Tower.pos b)
  /\ Fresnel.rMidMeters f
     = fresnelRadius (c_3e8 / parseFreqHz (Link.freqStr l))
         (distanceMeters (Tower.pos a) (Tower.pos b) / c_2)
         (distanceMeters (Tower.pos a) (Tower.pos b) / c_2)
  /\ Fresnel.freq f = Link.freqStr l.

(** The link of [Sample.linked] removed and the same pair linked again
    (part_000). *)
Definition relinked : store :=
  snd (Part000.createLink 1 2 (Part000.removeLink 1 Sample.linked)).

(** A hub with two links: towers 1, 2 and 3 at the default frequency, and
    the links 1 - 2 and 1 - 3. *)
Definition star : store :=
  snd (App.createLink 1 3 (snd (App.createLink 1 2 Sample.threeTowers))).

(** What a frequency edit of tower [id] does to the towers, for an
    implementation [update] whose frequency test fails when [mismatch]
    holds: ids and positions are kept in order, a tower with id [id] gets
    the new text, the other ids resolve as before, the counter stays and the
    link selection is cleared; editing an id that is not in a well-formed
    store changes neither towers nor links. *)
Definition freqEditFrame (mismatch : Tower.t -> Tower.t -> bool)
    (update : nat -> Patch.t -> store -> store) : Prop :=
  forall (id : nat) (f : string) (st : store),
    map Tower.id (towers (update id (Patch.ofFreq f) st))
    = map Tower.id (towers st)
    /\ map Tower.pos (towers (update id (Patch.ofFreq f) st))
       = map Tower.pos (towers st)
    /\ (forall t, In t (towers (update id (Patch.ofFreq f) st)) ->
                  Tower.id t = id -> Tower.freqStr t = f)
    /\ (forall k, k <> id ->
                  findTower (towers (update id (Patch.ofFreq f) st)) k
                  = findTower (towers st) k)
    /\ linkId (update id (Patch.ofFreq f) st) = linkId st
    /\ selectedLink (update id (Patch.ofFreq f) st) = None
    /\ (wellFormed mismatch st -> findTower (towers st) id = None ->
        towers (update id (Patch.ofFreq f) st) = towers st
        /\ links (update id (Patch.ofFreq f) st) = links st).

(** The marker click protocol for an implementation [create] of
    [createLink]: towers never change; a click with nothing selected only
    selects the tower; a second click on it restores the store; a click on
    another tower calls [create] from the selected tower to the clicked one
    and clears the selection. *)
Definition clickProtocol (create : nat -> nat -> store -> jsval * store)
  : Prop :=
  forall (tid : nat) (st : store),
    towers (markerClick create tid st) = towers st
    /\ (selectedTower st = None ->
        markerClick create tid st = setSelectedTower (Some tid) st)
    /\ (selectedTower st = None -> 1 <= tid ->
        markerClick create tid (markerClick create tid st) = st)
    /\ (forall other, selectedTower st = None -> 1 <= tid -> tid <> other ->
          markerClick create other (markerClick create tid st)
          = setSelectedTower None (snd (create tid other st))).
(* ================================================================== *)
(** * Facts about binary64 arithmetic *)
(* ================================================================== *)

Unset Implicit Arguments.

Section NumberFacts.

Lemma mul_NaN_r (x : num) : x * NaN = NaN.
Proof. destruct x; reflexivity. Qed.

Lemma add_NaN_r (x : num) : x + NaN = NaN.
Proof. destruct x; reflexivity. Qed.

Lemma sub_NaN_r (x : num) : x - NaN = NaN.
Proof. destruct x; reflexivity. Qed.


Lemma isNaN_true (x : num) : isNaN x = true <-> x = NaN.
Proof. destruct x; simpl; split; intros H; try discriminate; reflexivity. Qed.

(** [x === 0] holds exactly for the two zeros. *)
Lemma eqb_pzero (x : num) : (x === pzero) = true <-> exists s, x = S754_zero s.
Proof.
  destruct x as [s|s| |s m e]; simpl; unfold eqb, SFeqb; simpl.
  - split; [intros _; now exists s | reflexivity].
  - split; [destruct s; discriminate | intros [s' H]; discriminate].
  - split; [discriminate | intros [s' H]; discriminate].
  - split; [destruct s; discriminate | intros [s' H]; discriminate].
Qed.

(** Comparison is antisymmetric. *)
Lemma SFcompare_antisym (x y : num) :
  SFcompare y x = option_map CompOpp (SFcompare x y).
Proof.
  destruct x as [sx|sx| |sx mx ex], y as [sy|sy| |sy my ey];
    try reflexivity; try (destruct sx; reflexivity);
    try (destruct sy; reflexivity);
    try (destruct sx, sy; reflexivity).
  simpl. destruct sx, sy; try reflexivity;
    rewrite (Z.compare_antisym ex ey); destruct (ex ?= ey)%Z; simpl;
    try reflexivity;
    rewrite (Pos.compare_cont_antisym mx my Eq); simpl;
    try rewrite CompOpp_involutive; reflexivity.
Qed.

(** On numbers, [a > b] is the negation of [a <= b]. *)
Lemma gtb_negb_leb (a b : num) :
  isNaN a = false -> isNaN b = false -> (a >? b) = negb (a <=? b).
Proof.
  intros Ha Hb. unfold gtb, ltb, leb, SFltb, SFleb.
  rewrite (SFcompare_antisym a b).
  destruct (SFcompare a b) as [[]|] eqn:E; try reflexivity.
  destruct a, b; simpl in *; discriminate.
Qed.

(** Rounding a non-negative mantissa never produces NaN. *)
Lemma shr_1_nonneg (mrs : shr_record) :
  (0 <= shr_m mrs)%Z -> (0 <= shr_m (shr_1 mrs))%Z.
Proof.
  destruct mrs as [m r s]; simpl.
  destruct m as [|[p|p|]|[p|p|]]; simpl; lia.
Qed.

Lemma iter_shr_1_nonneg (p : positive) (mrs : shr_record) :
  (0 <= shr_m mrs)%Z -> (0 <= shr_m (iter_pos shr_1 p mrs))%Z.
Proof.
  revert mrs; induction p as [p IH|p IH|]; intros mrs H; simpl.
  - apply IH, IH, shr_1_nonneg, H.
  - apply IH, IH, H.
  - apply shr_1_nonneg, H.
Qed.

Lemma shr_fexp_nonneg (m e : Z) (l : location) :
  (0 <= m)%Z -> (0 <= shr_m (fst (shr_fexp prec emax m e l)))%Z.
Proof.
  intros H. unfold shr_fexp, shr.
  assert (H0 : (0 <= shr_m (shr_record_of_loc m l))%Z)
    by (destruct l as [|[]]; exact H).
  destruct (_ - e)%Z; simpl; auto using iter_shr_1_nonneg.
Qed.

Lemma round_nearest_even_nonneg (m : Z) (l : location) :
  (0 <= m)%Z -> (0 <= round_nearest_even m l)%Z.
Proof.
  intros H. destruct l as [|[]]; simpl; try lia.
  destruct (Z.even m); lia.
Qed.

Lemma binary_round_aux_not_NaN (sx : bool) (mx ex : Z) (lx : location) :
  (0 <= mx)%Z -> isNaN (binary_round_aux prec emax sx mx ex lx) = false.
Proof.
  intros H. unfold binary_round_aux.
  pose proof (shr_fexp_nonneg mx ex lx H) as H1.
  destruct (shr_fexp prec emax mx ex lx) as [mrs' e']; simpl in H1.
  pose proof (round_nearest_even_nonneg _ (loc_of_shr_record mrs') H1) as H2.
  pose proof (shr_fexp_nonneg _ e' loc_Exact H2) as H3.
  destruct (shr_fexp prec emax _ e' loc_Exact) as [mrs'' e'']; simpl in H3.
  destruct (shr_m mrs'') as [|p|p]; try reflexivity.
  - destruct (_ <=? _)%Z; reflexivity.
  - lia.
Qed.

Lemma binary_normalize_not_NaN (m e : Z) (sz : bool) :
  isNaN (binary_normalize prec emax m e sz) = false.
Proof.
  destruct m as [|p|p]; simpl; try reflexivity;
    unfold binary_round; destruct (shl_align _ _ _);
    apply binary_round_aux_not_NaN; lia.
Qed.

(** A product is NaN only for a NaN factor or for zero times infinity. *)
Lemma mul_finite_not_NaN (s : bool) (m : positive) (e : Z) (y : num) :
  isNaN y = false -> isNaN (S754_finite s m e * y) = false.
Proof.
  destruct y as [sy|sy| |sy my ey]; intros H; try reflexivity; try discriminate.
  apply binary_round_aux_not_NaN; lia.
Qed.

(** A difference of numbers is NaN only for two infinities of one sign. *)
Lemma sub_not_NaN (a b : num) :
  isNaN a = false -> isNaN b = false -> sameInfinity a b = false ->
  isNaN (a - b) = false.
Proof.
  destruct a as [sa|sa| |sa ma ea], b as [sb|sb| |sb mb eb];
    intros Ha Hb Hi; try discriminate; try reflexivity;
    try (destruct sa, sb; try reflexivity; discriminate).
  apply binary_normalize_not_NaN.
Qed.

Lemma max_not_NaN (a b : num) :
  isNaN a = false -> isNaN b = false -> isNaN (max a b) = false.
Proof.
  destruct a as [[]|sa| |sa ma ea], b as [[]|sb| |sb mb eb];
    intros Ha Hb; try discriminate; try reflexivity;
    unfold max; match goal with |- context [if ?c then _ else _] =>
                  destruct c end; reflexivity.
Qed.

Lemma abs_isNaN (x : num) : isNaN (abs x) = isNaN x.
Proof. destruct x; reflexivity. Qed.

End NumberFacts.

(* ================================================================== *)
(** * Fresnel radius *)
(* ================================================================== *)

(** C8.  [fresnelRadius lambda d1 d2] is exactly [+0] when [d1 + d2] is a
    zero, and [sqrt (lambda * d1 * d2 / (d1 + d2))] when it is not; the
    function is total, so the degenerate case is a value and not an error.
    In particular the midpoint radius of two coincident endpoints (path
    length zero) is [+0] whatever the frequency. *)
Theorem C8_fresnelRadius_spec :
  forall lambda d1 d2 : num,
    ((exists s, d1 + d2 = S754_zero s) -> fresnelRadius lambda d1 d2 = pzero)
    /\ ((forall s, d1 + d2 <> S754_zero s) ->
        fresnelRadius lambda d1 d2 = sqrt ((lambda * d1 * d2) / (d1 + d2)))
    /\ (forall (M : MathLib) (a b : LatLng.t) (freqHz : num),
          (exists s, distanceMeters a b = S754_zero s) ->
          snd (computeSimpleFresnel a b freqHz) = pzero).
Proof.
  intros lambda d1 d2. unfold fresnelRadius. split; [|split].
  - intros H. apply eqb_pzero in H. now rewrite H.
  - intros H. destruct (d1 + d2 === pzero) eqn:E; [|reflexivity].
    apply eqb_pzero in E. destruct E as [s E]. now elim (H s).
  - intros M a b freqHz [s Hs]. unfold computeSimpleFresnel, fresnelRadius.
    cbn [snd]. rewrite Hs. destruct s; vm_compute; reflexivity.
Qed.

(** The spec's sample value: wavelength 0.06 m and 50 km on either side give
    a radius between 38.72 m and 38.74 m. *)
Lemma C8_fresnelRadius_witness :
  fresnelRadius (of_decimal false 6 (-2)) (of_Z 50000) (of_Z 50000)
  = sqrt ((of_decimal false 6 (-2) * of_Z 50000 * of_Z 50000)
          / (of_Z 50000 + of_Z 50000))
  /\ (of_decimal false 3872 (-2)
      <=? fresnelRadius (of_decimal false 6 (-2)) (of_Z 50000) (of_Z 50000))
     = true
  /\ (fresnelRadius (of_decimal false 6 (-2)) (of_Z 50000) (of_Z 50000)
      <=? of_decimal false 3874 (-2)) = true
  /\ fresnelRadius (of_decimal false 6 (-2)) pzero pzero = pzero.
Proof.
  split; [|split; [|split]].
  - refine (proj1 (proj2 (C8_fresnelRadius_spec (of_decimal false 6 (-2))
                            (of_Z 50000) (of_Z 50000))) _).
    intros s; vm_compute; discriminate.
  - vm_compute; reflexivity.
  - vm_compute; reflexivity.
  - refine (proj1 (C8_fresnelRadius_spec (of_decimal false 6 (-2))
                     pzero pzero) _).
    exists false; vm_compute; reflexivity.
Defined.

(* ================================================================== *)
(** * The tower/link store *)
(* ================================================================== *)

Lemma findTower_None (ts : list Tower.t) (i : nat) :
  findTower ts i = None <-> ~ In i (map Tower.id ts).
Proof.
  unfold findTower. induction ts as [|t ts IH]; simpl.
  - tauto.
  - destruct (Tower.id t =? i)%nat eqn:E.
    + apply Nat.eqb_eq in E. split; [discriminate | intros H; elim H; auto].
    + apply Nat.eqb_neq in E. rewrite IH. tauto.
Qed.

(** The towers after a patch that leaves the [id] property alone. *)
Lemma map_id_patched (id : nat) (p : Patch.t) (ts : list Tower.t) :
  Patch.id p = None -> map Tower.id (patched id p ts) = map Tower.id ts.
Proof.
  intros Hp. unfold patched. rewrite map_map. apply map_ext. intros t.
  destruct (Tower.id t =? id)%nat; [|reflexivity].
  unfold Patch.apply. now rewrite Hp.
Qed.

Lemma findTower_patched (id : nat) (p : Patch.t) (ts : list Tower.t) (k : nat) :
  Patch.id p = None ->
  findTower (patched id p ts) k
  = if (k =? id)%nat
    then option_map (fun t => Patch.apply t p) (findTower ts k)
    else findTower ts k.
Proof.
  intros Hp. unfold findTower, patched.
  induction ts as [|t ts IH]; simpl.
  - now destruct (k =? id)%nat.
  - destruct (Tower.id t =? id)%nat eqn:E1.
    + assert (Hid : Tower.id (Patch.apply t p) = Tower.id t)
        by (unfold Patch.apply; now rewrite Hp).
      rewrite Hid. destruct (Tower.id t =? k)%nat eqn:E2.
      * apply Nat.eqb_eq in E1, E2. subst. now rewrite Nat.eqb_refl.
      * exact IH.
    + destruct (Tower.id t =? k)%nat eqn:E2; [|exact IH].
      apply Nat.eqb_eq in E2. subst k. now rewrite E1.
Qed.

Section StoreFacts.

Variable mismatchOnUpdate : Tower.t -> Tower.t -> bool.

(** [.map(...).filter(Boolean)] of [updateTower] is a filter. *)
Lemma revalidate_filter (updated : list Tower.t) (ls : list Link.t) :
  filterBoolean (map (revalidate mismatchOnUpdate updated) ls)
  = filter (endpointsMatch mismatchOnUpdate updated) ls.
Proof.
  induction ls as [|l ls IH]; simpl; [reflexivity|].
  unfold revalidate at 1, endpointsMatch at 1.
  destruct (findTower updated (Link.aId l)) as [a|];
    [destruct (findTower updated (Link.bId l)) as [b|]|];
    simpl; try exact IH.
  destruct (mismatchOnUpdate a b); simpl; [exact IH | now rewrite IH].
Qed.

Lemma updateTower_links (id : nat) (p : Patch.t) (st : store) :
  links (updateTower mismatchOnUpdate id p st)
  = filter (endpointsMatch mismatchOnUpdate (patched id p (towers st)))
           (links st).
Proof. unfold updateTower; simpl. apply revalidate_filter. Qed.

Lemma updateTower_towers (id : nat) (p : Patch.t) (st : store) :
  towers (updateTower mismatchOnUpdate id p st) = patched id p (towers st).
Proof. reflexivity. Qed.



End StoreFacts.

Lemma samePair_joins (aId bId : nat) (l : Link.t) :
  samePair aId bId l = true <-> joins aId bId l.
Proof.
  unfold samePair, joins.
  rewrite orb_true_iff, !andb_true_iff, !Nat.eqb_eq. tauto.
Qed.

Lemma joins_sym (aId bId : nat) (l : Link.t) :
  joins aId bId l <-> joins bId aId l.
Proof. unfold joins; tauto. Qed.

Lemma existsb_samePair (aId bId : nat) (ls : list Link.t) :
  existsb (samePair aId bId) ls = true
  <-> exists l, In l ls /\ joins aId bId l.
Proof.
  rewrite existsb_exists. split; intros [l [H1 H2]]; exists l;
    (split; [exact H1 | now apply samePair_joins]).
Qed.

Section CreateLinkFacts.

Variable mismatchOnCreate : Tower.t -> Tower.t -> bool.

Lemma createLink_value (aId bId : nat) (st : store) :
  fst (createLink mismatchOnCreate aId bId st) = JUndefined.
Proof.
  unfold createLink. destruct (aId =? bId)%nat; [reflexivity|].
  destruct (findTower (towers st) aId) as [a|]; [|reflexivity].
  destruct (findTower (towers st) bId) as [b|]; [|reflexivity].
  destruct (mismatchOnCreate a b); [reflexivity|].
  destruct (existsb _ _); reflexivity.
Qed.

Lemma createLink_self (aId : nat) (st : store) :
  createLink mismatchOnCreate aId aId st = (JUndefined, st).
Proof. unfold createLink. now rewrite Nat.eqb_refl. Qed.

Lemma createLink_missing (aId bId : nat) (st : store) :
  findTower (towers st) aId = None \/ findTower (towers st) bId = None ->
  createLink mismatchOnCreate aId bId st = (JUndefined, st).
Proof.
  intros H. unfold createLink. destruct (aId =? bId)%nat; [reflexivity|].
  destruct H as [H|H]; rewrite H; [reflexivity|].
  now destruct (findTower (towers st) aId).
Qed.

Section Found.
Variables (aId bId : nat) (st : store) (a b : Tower.t).
Hypothesis Hne : aId <> bId.
Hypothesis Ha : findTower (towers st) aId = Some a.
Hypothesis Hb : findTower (towers st) bId = Some b.

Lemma createLink_mismatch :
  mismatchOnCreate a b = true ->
  createLink mismatchOnCreate aId bId st
  = (JUndefined, setMessage "Frequencies do not match" st).
Proof.
  intros H. unfold createLink. apply Nat.eqb_neq in Hne.
  now rewrite Hne, Ha, Hb, H.
Qed.

Lemma createLink_duplicate :
  mismatchOnCreate a b = false ->
  (exists l, In l (links st) /\ joins aId bId l) ->
  createLink mismatchOnCreate aId bId st
  = (JUndefined, setMessage "Link already exists" st).
Proof.
  intros H Hd. apply existsb_samePair in Hd. unfold createLink.
  apply Nat.eqb_neq in Hne. now rewrite Hne, Ha, Hb, H, Hd.
Qed.

Lemma createLink_success :
  mismatchOnCreate a b = false ->
  (forall l, In l (links st) -> ~ joins aId bId l) ->
  createLink mismatchOnCreate aId bId st
  = (JUndefined, withNewLink st aId bId a).
Proof.
  intros H Hd. unfold createLink. apply Nat.eqb_neq in Hne.
  rewrite Hne, Ha, Hb, H.
  destruct (existsb (samePair aId bId) (links st)) eqn:E; [|reflexivity].
  apply existsb_samePair in E. destruct E as [l [H1 H2]]. now elim (Hd l).
Qed.

End Found.

Lemma createLink_outcomes_generic :
  createLink_outcomes mismatchOnCreate (createLink mismatchOnCreate).
Proof.
  intros st aId bId. split; [apply createLink_value|].
  split; [intros ->; now rewrite createLink_self|].
  split; [intros _ H; now rewrite createLink_missing|].
  intros a b Hne Ha Hb. repeat split.
  - intros H. now rewrite (createLink_mismatch _ _ _ _ _ Hne Ha Hb H).
  - intros H Hd. now rewrite (createLink_duplicate _ _ _ _ _ Hne Ha Hb H Hd).
  - intros H Hd. now rewrite (createLink_success _ _ _ _ _ Hne Ha Hb H Hd).
Qed.

Lemma createLink_atomic_generic :
  createLink_atomic mismatchOnCreate (createLink mismatchOnCreate).
Proof.
  intros st aId bId. split.
  - intros [H|[H|[H|[H|H]]]].
    + subst. now rewrite createLink_self.
    + rewrite createLink_missing; auto.
    + rewrite createLink_missing; auto.
    + destruct H as [a [b [Ha [Hb Hm]]]].
      destruct (Nat.eq_dec aId bId) as [->|Hne];
        [now rewrite createLink_self|].
      now rewrite (createLink_mismatch _ _ _ _ _ Hne Ha Hb Hm).
    + destruct (Nat.eq_dec aId bId) as [->|Hne];
        [now rewrite createLink_self|].
      destruct (findTower (towers st) aId) as [a|] eqn:Ha;
        [|rewrite createLink_missing; auto].
      destruct (findTower (towers st) bId) as [b|] eqn:Hb;
        [|rewrite createLink_missing; auto].
      destruct (mismatchOnCreate a b) eqn:Hm.
      * now rewrite (createLink_mismatch _ _ _ _ _ Hne Ha Hb Hm).
      * now rewrite (createLink_duplicate _ _ _ _ _ Hne Ha Hb Hm H).
  - intros Hn. unfold rejected in Hn.
    destruct (Nat.eq_dec aId bId) as [->|Hne]; [elim Hn; auto|].
    destruct (findTower (towers st) aId) as [a|] eqn:Ha; [|elim Hn; auto].
    destruct (findTower (towers st) bId) as [b|] eqn:Hb; [|elim Hn; auto].
    destruct (mismatchOnCreate a b) eqn:Hm.
    + elim Hn. do 3 right. left. now exists a, b.
    + exists a. split; [reflexivity|].
      rewrite (createLink_success _ _ _ _ _ Hne Ha Hb Hm); [reflexivity|].
      intros l Hl Hj. apply Hn. do 4 right. now exists l.
Qed.

End CreateLinkFacts.

(* ================================================================== *)
(** * createLink *)
(* ================================================================== *)

(** C3 (as amended).  In both implementations [createLink] never fails and
    always hands back [undefined]; its outcome shows in the state only.
    Checked in this order: equal ids, or an id with no tower, leave the state
    untouched; a failed frequency test only sets the message to
    "Frequencies do not match"; an existing link over the same unordered pair
    (either orientation) only sets the message to "Link already exists";
    otherwise the link [{id: linkId, aId, bId, freqStr: a.freqStr}] is
    appended and the counter incremented. *)
Theorem C3_createLink_outcomes :
  createLink_outcomes App.freqDiffers App.createLink
  /\ createLink_outcomes (fun a b => negb (Part000.canLink a b))
                         Part000.createLink.
Proof. split; apply createLink_outcomes_generic. Qed.

(** A run of the cases of C3 on stores built by the handlers: a self link, a
    missing tower, a duplicate in the reverse orientation and a creation. *)
Lemma C3_createLink_outcomes_witness :
  snd (App.createLink 1 1 Sample.twoTowers) = Sample.twoTowers
  /\ snd (Part000.createLink 1 7 Sample.twoTowers) = Sample.twoTowers
  /\ snd (Part000.createLink 2 1 Sample.linked)
     = setMessage "Link already exists" Sample.linked
  /\ links (snd (App.createLink 1 2 Sample.twoTowers))
     = [Link.mk 1 1 2 "5 GHz" None].
Proof.
  destruct C3_createLink_outcomes as [HA HP].
  split; [|split; [|split]].
  - exact (proj1 (proj2 (HA Sample.twoTowers 1 1)) eq_refl).
  - apply (proj1 (proj2 (proj2 (HP Sample.twoTowers 1 7))));
      [discriminate | right; reflexivity].
  - destruct (HP Sample.linked 2 1) as [_ [_ [_ H]]].
    destruct (H (Tower.mk 2 (of_Z 22) (of_Z 77) "5 GHz")
                (Tower.mk 1 (of_decimal false 225 (-1))
                          (of_decimal false 775 (-1)) "5 GHz")
                ltac:(discriminate) eq_refl eq_refl) as [_ [Hd _]].
    apply Hd; [vm_compute; reflexivity|].
    exists (Link.mk 1 1 2 "5 GHz" None).
    split; [vm_compute; left; reflexivity|].
    right; split; reflexivity.
  - destruct (HA Sample.twoTowers 1 2) as [_ [_ [_ H]]].
    destruct (H (Tower.mk 1 (of_decimal false 225 (-1))
                          (of_decimal false 775 (-1)) "5 GHz")
                (Tower.mk 2 (of_Z 22) (of_Z 77) "5 GHz")
                ltac:(discriminate) eq_refl eq_refl) as [_ [_ Hs]].
    rewrite Hs; [reflexivity | vm_compute; reflexivity | intros l []].
Defined.

(** C3 (as stated) fails: [createLink(1, 1)] hands back [undefined], not the
    classified value [SELF_LINK], and a successful [createLink(1, 2)] hands
    back [undefined], not the link it stored. *)
Lemma C3_counterexample :
  fst (App.createLink 1 1 Sample.twoTowers) <> JString "SELF_LINK"
  /\ fst (Part000.createLink 1 1 Sample.twoTowers) <> JString "SELF_LINK"
  /\ links (snd (App.createLink 1 2 Sample.twoTowers))
     = [Link.mk 1 1 2 "5 GHz" None]
  /\ fst (App.createLink 1 2 Sample.twoTowers)
     <> JLink (Link.mk 1 1 2 "5 GHz" None)
  /\ fst (Part000.createLink 1 2 Sample.twoTowers)
     <> JLink (Link.mk 1 1 2 "5 GHz" None).
Proof.
  split; [|split; [|split; [|split]]];
    try (vm_compute; discriminate). vm_compute; reflexivity.
Qed.

(** C10.  A rejected [createLink] (self link, missing tower, frequency
    mismatch or duplicate pair) leaves the towers, the links and the link-id
    counter exactly as they were; a call that is not rejected appends one
    link and increments the counter.  Both implementations. *)
Theorem C10_createLink_atomic :
  createLink_atomic App.freqDiffers App.createLink
  /\ createLink_atomic (fun a b => negb (Part000.canLink a b))
                       Part000.createLink.
Proof. split; apply createLink_atomic_generic. Qed.

(** C10 on a duplicate request in the reverse orientation. *)
Lemma C10_createLink_atomic_witness :
  rejected App.freqDiffers Sample.linked 2 1
  /\ towers (snd (App.createLink 2 1 Sample.linked)) = towers Sample.linked
  /\ links (snd (App.createLink 2 1 Sample.linked)) = links Sample.linked
  /\ linkId (snd (App.createLink 2 1 Sample.linked)) = linkId Sample.linked.
Proof.
  assert (H : rejected App.freqDiffers Sample.linked 2 1).
  { do 4 right. exists (Link.mk 1 1 2 "5 GHz" None).
    split; [vm_compute; left; reflexivity | right; split; reflexivity]. }
  split; [exact H|].
  exact (proj1 (proj1 C10_createLink_atomic Sample.linked 2 1) H).
Defined.

(* ================================================================== *)
(** * addTower and removeTower *)
(* ================================================================== *)

Lemma newTowerId_above (ts : list Tower.t) :
  Forall (fun t => Tower.id t < newTowerId ts) ts.
Proof.
  destruct ts as [|t0 ts0]; [constructor|].
  unfold newTowerId. set (ts := t0 :: ts0).
  assert (H : Forall (fun k => k <= list_max (map Tower.id ts))
                     (map Tower.id ts)) by now apply list_max_le.
  rewrite Forall_map in H. revert H. apply Forall_impl. intros; lia.
Qed.

Lemma newTowerId_fresh (ts : list Tower.t) :
  ~ In (newTowerId ts) (map Tower.id ts).
Proof.
  intros H. apply in_map_iff in H. destruct H as [t [H1 H2]].
  pose proof (newTowerId_above ts) as Ha. rewrite Forall_forall in Ha.
  specialize (Ha t H2). lia.
Qed.

Lemma newTowerId_positive (ts : list Tower.t) : 1 <= newTowerId ts.
Proof. destruct ts; simpl; lia. Qed.

Lemma filter_other_ids (k : nat) (ts : list Tower.t) :
  ~ In k (map Tower.id ts) ->
  filter (fun t => negb (Tower.id t =? k)) ts = ts.
Proof.
  induction ts as [|t ts IH]; simpl; [reflexivity|]. intros H.
  destruct (Tower.id t =? k) eqn:E.
  - apply Nat.eqb_eq in E. elim H; auto.
  - simpl. rewrite IH; [reflexivity | tauto].
Qed.

Lemma removeTower_removed (id : nat) (st : store) :
  towerRemoved id st (removeTower id st).
Proof.
  unfold towerRemoved, removeTower; simpl. split; [|split].
  - apply findTower_None. rewrite in_map_iff. intros [t [H1 H2]].
    apply filter_In in H2.
    destruct H2 as [_ H2]. rewrite H1, Nat.eqb_refl in H2. discriminate.
  - intros t. rewrite filter_In, negb_true_iff, Nat.eqb_neq. tauto.
  - intros l. rewrite filter_In, andb_true_iff, !negb_true_iff, !Nat.eqb_neq.
    tauto.
Qed.

(** C9.  After [removeTower id] the id resolves to no tower and no remaining
    link has it as an endpoint; every other tower and every link not incident
    to [id] is still there.  Both implementations. *)
Theorem C9_removeTower_cascade :
  forall (st : store) (id : nat),
    towerRemoved id st (App.removeTower id st)
    /\ towerRemoved id st (Part000.removeTower id st).
Proof. intros st id. split; apply removeTower_removed. Qed.

(** C1 fails on the code: [addTower] computes the new id as the largest
    current id plus one.  For every store, when the tower just added (the one
    with the highest id, [k]) is removed, the next [addTower] hands out [k]
    again, to a tower at another position.  Both implementations. *)
Theorem C1_tower_id_reused :
  forall (st : store) (p q : LatLng.t),
    let k := newTowerId (towers st) in
    towers (App.addTower p st)
    = (towers st ++ [Tower.mk k (LatLng.lat p) (LatLng.lng p) "5 GHz"])%list
    /\ towers (App.addTower q (App.removeTower k (App.addTower p st)))
       = (towers st ++ [Tower.mk k (LatLng.lat q) (LatLng.lng q) "5 GHz"])%list
    /\ towers (Part000.addTower q (Part000.removeTower k (Part000.addTower p st)))
       = (towers st ++ [Tower.mk k (LatLng.lat q) (LatLng.lng q) "5 GHz"])%list.
Proof.
  intros st p q k.
  assert (H : filter (fun t => negb (Tower.id t =? k))
                (towers st ++ [Tower.mk k (LatLng.lat p) (LatLng.lng p) "5 GHz"])
              = towers st).
  { rewrite filter_app, filter_other_ids by apply newTowerId_fresh.
    simpl. rewrite Nat.eqb_refl. simpl. apply app_nil_r. }
  split; [reflexivity|].
  unfold App.addTower, App.removeTower, Part000.addTower, Part000.removeTower,
    addTower, removeTower; simpl.
  fold k. rewrite H. split; reflexivity.
Qed.

(** The failing run of C1 from the empty store: towers 1 and 2 are added,
    tower 2 is removed, and the third tower is numbered 2 again. *)
Lemma C1_tower_id_reused_run :
  map Tower.id (towers Sample.twoTowers) = [1; 2]
  /\ towers (App.addTower Sample.pos3 (App.removeTower 2 Sample.twoTowers))
     = [Tower.mk 1 (of_decimal false 225 (-1)) (of_decimal false 775 (-1))
                 "5 GHz";
        Tower.mk 2 (of_Z 23) (of_Z 78) "5 GHz"].
Proof. split; reflexivity. Qed.

(* ================================================================== *)
(** * The invariant of the store *)
(* ================================================================== *)

Lemma findTower_app (ts r : list Tower.t) (k : nat) (a : Tower.t) :
  findTower ts k = Some a -> findTower (ts ++ r) k = Some a.
Proof.
  unfold findTower. induction ts as [|t ts IH]; simpl; [discriminate|].
  destruct (Tower.id t =? k); auto.
Qed.

Lemma findTower_filter_other (id k : nat) (ts : list Tower.t) :
  k <> id ->
  findTower (filter (fun t => negb (Tower.id t =? id)) ts) k = findTower ts k.
Proof.
  intros Hk. unfold findTower. induction ts as [|t ts IH]; simpl; [reflexivity|].
  destruct (Tower.id t =? id) eqn:E1; simpl.
  - destruct (Tower.id t =? k) eqn:E2; [|exact IH].
    apply Nat.eqb_eq in E1, E2. congruence.
  - now rewrite IH.
Qed.

(** Removing towers keeps the remaining ids pairwise distinct. *)
Lemma removeTower_ids_unique (id : nat) (ts : list Tower.t) :
  NoDup (map Tower.id ts) ->
  NoDup (map Tower.id (filter (fun t => negb (Tower.id t =? id)) ts)).
Proof.
  induction ts as [|t ts IH]; intros Hnd; cbn [filter map]; [constructor|].
  apply NoDup_cons_iff in Hnd. destruct Hnd as [Ht Hts].
  destruct (negb (Tower.id t =? id)); [|now apply IH].
  cbn [map]. apply NoDup_cons; [|now apply IH].
  intros Hin. apply Ht. apply in_map_iff in Hin. destruct Hin as [u [Eu Hu]].
  apply filter_In in Hu. apply in_map_iff. exists u. tauto.
Qed.

Section Invariant.

Variable mismatch : Tower.t -> Tower.t -> bool.

Lemma wellFormed_init (msg : string) : wellFormed mismatch (initialStore msg).
Proof. constructor; simpl; constructor. Qed.

Lemma wellFormed_same (st st' : store) :
  towers st' = towers st -> links st' = links st ->
  wellFormed mismatch st -> wellFormed mismatch st'.
Proof. intros Ht Hl [H1 H2 H3]. constructor; rewrite ?Ht, ?Hl; assumption. Qed.

Lemma endpointsMatch_app (ts r : list Tower.t) (l : Link.t) :
  endpointsMatch mismatch ts l = true ->
  endpointsMatch mismatch (ts ++ r) l = true.
Proof.
  unfold endpointsMatch.
  destruct (findTower ts (Link.aId l)) as [a|] eqn:Ha; [|discriminate].
  destruct (findTower ts (Link.bId l)) as [b|] eqn:Hb; [|discriminate].
  now rewrite (findTower_app ts r _ a Ha), (findTower_app ts r _ b Hb).
Qed.

Lemma wellFormed_addTower (pos : LatLng.t) (st : store) :
  wellFormed mismatch st -> wellFormed mismatch (addTower pos st).
Proof.
  intros [H1 H2 H3]. constructor; simpl.
  - rewrite map_app; simpl. apply NoDup_app; [exact H1 | | ].
    + constructor; [intros [] | constructor].
    + intros k Hk [Hn|[]]. subst k. now apply (newTowerId_fresh (towers st)).
  - apply Forall_app. split; [exact H2|].
    constructor; [apply newTowerId_positive | constructor].
  - revert H3. apply Forall_impl. intros l. apply endpointsMatch_app.
Qed.

Lemma wellFormed_updateTower (id : nat) (f : string) (st : store) :
  wellFormed mismatch st ->
  wellFormed mismatch (updateTower mismatch id (Patch.ofFreq f) st).
Proof.
  intros [H1 H2 H3]. constructor.
  - rewrite updateTower_towers, map_id_patched; auto.
  - rewrite updateTower_towers. apply Forall_forall. intros t Ht.
    unfold patched in Ht. apply in_map_iff in Ht. destruct Ht as [t0 [E Ht0]].
    rewrite Forall_forall in H2. specialize (H2 t0 Ht0).
    destruct (Tower.id t0 =? id); subst t; simpl; exact H2.
  - rewrite updateTower_links, updateTower_towers. apply Forall_forall.
    intros l Hl. apply filter_In in Hl. tauto.
Qed.

Lemma wellFormed_removeTower (id : nat) (st : store) :
  wellFormed mismatch st -> wellFormed mismatch (removeTower id st).
Proof.
  intros [H1 H2 H3]. constructor; simpl.
  - now apply removeTower_ids_unique.
  - apply Forall_forall. intros t Ht. apply filter_In in Ht.
    rewrite Forall_forall in H2. apply H2. tauto.
  - apply Forall_forall. intros l Hl. apply filter_In in Hl.
    destruct Hl as [Hl Hn]. rewrite Forall_forall in H3. specialize (H3 l Hl).
    apply andb_true_iff in Hn. rewrite !negb_true_iff, !Nat.eqb_neq in Hn.
    unfold endpointsMatch in *.
    now rewrite !findTower_filter_other by tauto.
Qed.

Lemma wellFormed_createLink (mismatchOnCreate : Tower.t -> Tower.t -> bool)
    (aId bId : nat) (st : store) :
  (forall a b, mismatchOnCreate a b = false -> mismatch a b = false) ->
  wellFormed mismatch st ->
  wellFormed mismatch (snd (createLink mismatchOnCreate aId bId st)).
Proof.
  intros Himp Hwf. unfold createLink.
  destruct (aId =? bId); [exact Hwf|].
  destruct (findTower (towers st) aId) as [a|] eqn:Ha; [|exact Hwf].
  destruct (findTower (towers st) bId) as [b|] eqn:Hb; [|exact Hwf].
  destruct (mismatchOnCreate a b) eqn:Hm;
    [now apply (wellFormed_same st)|].
  destruct (existsb _ _); [now apply (wellFormed_same st)|].
  destruct Hwf as [H1 H2 H3]. constructor; simpl; auto.
  apply Forall_app. split; [exact H3|]. constructor; [|constructor].
  unfold endpointsMatch; simpl. now rewrite Ha, Hb, (Himp a b Hm).
Qed.


(** Attaching Fresnel data to links keeps their endpoints. *)
Lemma wellFormed_setLinks_map (g : Link.t -> Link.t) (st : store) :
  (forall x, Link.aId (g x) = Link.aId x /\ Link.bId (g x) = Link.bId x) ->
  wellFormed mismatch st -> wellFormed mismatch (setLinks (map g) st).
Proof.
  intros Hg [H1 H2 H3]. constructor; simpl; auto.
  apply Forall_map. revert H3. apply Forall_impl. intros l.
  unfold endpointsMatch. destruct (Hg l) as [-> ->]. auto.
Qed.

End Invariant.

(* ================================================================== *)
(** * The frequency tests *)
(* ================================================================== *)

Lemma c_1em6_finite : c_1em6 = S754_finite false 4722366482869645 (-72).
Proof. vm_compute. reflexivity. Qed.

(** The [isNaN] guards of [canLink] are implied by the comparison. *)
Lemma canLink_withinTolerance (a b : Tower.t) :
  Part000.canLink a b = withinTolerance (towerFreq a) (towerFreq b).
Proof.
  unfold Part000.canLink, withinTolerance, towerFreq.
  destruct (isNaN (parseFreqHz (Tower.freqStr a))) eqn:Ea.
  - apply isNaN_true in Ea. rewrite Ea. reflexivity.
  - destruct (isNaN (parseFreqHz (Tower.freqStr b))) eqn:Eb; [|reflexivity].
    apply isNaN_true in Eb. rewrite Eb, sub_NaN_r. reflexivity.
Qed.

Lemma withinTolerance_NaN (fa fb : num) :
  isNaN fa = true \/ isNaN fb = true -> withinTolerance fa fb = false.
Proof.
  unfold withinTolerance.
  intros [H|H]; apply isNaN_true in H; subst;
    [|rewrite sub_NaN_r]; reflexivity.
Qed.

Lemma tolerance_not_NaN (fa fb : num) :
  isNaN fa = false -> isNaN fb = false -> isNaN (c_1em6 * max fa fb) = false.
Proof.
  intros Ha Hb. rewrite c_1em6_finite.
  apply mul_finite_not_NaN, max_not_NaN; assumption.
Qed.

(** Outside the pairs of equal infinities, [updateTower]'s test in part_000
    is the negation of the tolerance test. *)
Lemma freqInvalid_withinTolerance (a b : Tower.t) :
  sameInfinity (towerFreq a) (towerFreq b) = false ->
  Part000.freqInvalid a b = negb (withinTolerance (towerFreq a) (towerFreq b)).
Proof.
  unfold Part000.freqInvalid, towerFreq. intros Hi.
  set (fa := parseFreqHz (Tower.freqStr a)) in *.
  set (fb := parseFreqHz (Tower.freqStr b)) in *.
  destruct (isNaN fa) eqn:Ea;
    [now rewrite withinTolerance_NaN by (left; exact Ea)|].
  destruct (isNaN fb) eqn:Eb;
    [now rewrite withinTolerance_NaN by (right; exact Eb)|].
  cbn [orb]. unfold withinTolerance. apply gtb_negb_leb.
  - rewrite abs_isNaN. now apply sub_not_NaN.
  - now apply tolerance_not_NaN.
Qed.


(* ================================================================== *)
(** * Reachable states are well formed *)
(* ================================================================== *)

Lemma App_reachable_wellFormed (M : MathLib) (st : store) :
  App.reachable st -> wellFormed App.freqDiffers st.
Proof.
  induction 1 as [msg|st pos _ IH|st id f _ IH|st id _ IH|st aId bId _ IH
                 |st l _ IH Hl|st t l m _ IH].
  - apply wellFormed_init.
  - now apply wellFormed_addTower.
  - now apply wellFormed_updateTower.
  - now apply wellFormed_removeTower.
  - apply wellFormed_createLink; auto.
  - unfold App.onLinkClick.
    assert (H1 : wellFormed App.freqDiffers
                   (setSelectedLink (Some (Link.id l)) st))
      by now apply (wellFormed_same _ st).
    destruct (findTower (towers st) (Link.aId l)); [|exact H1].
    destruct (findTower (towers st) (Link.bId l)); [|exact H1].
    apply wellFormed_setLinks_map; [|exact H1].
    intros x. destruct (Link.id x =? Link.id l); split; reflexivity.
  - now apply (wellFormed_same _ st).
Qed.


(* ================================================================== *)
(** * Frequency compatibility in createLink and updateTower *)
(* ================================================================== *)

Lemma decidesCreation_generic (mismatch : Tower.t -> Tower.t -> bool)
    (ok : num -> num -> bool) :
  (forall a b, mismatch a b = negb (ok (towerFreq a) (towerFreq b))) ->
  decidesCreation ok (createLink mismatch).
Proof.
  intros Hok st aId bId a b Hne Ha Hb. split; intros H.
  - rewrite (createLink_mismatch mismatch _ _ _ _ _ Hne Ha Hb);
      [reflexivity | now rewrite Hok, H].
  - assert (Hm : mismatch a b = false) by now rewrite Hok, H.
    destruct (existsb (samePair aId bId) (links st)) eqn:E.
    + left. apply existsb_samePair in E.
      now rewrite (createLink_duplicate mismatch _ _ _ _ _ Hne Ha Hb Hm E).
    + right. rewrite (createLink_success mismatch _ _ _ _ _ Hne Ha Hb Hm);
        [reflexivity|].
      intros l Hl Hj.
      assert (E' : existsb (samePair aId bId) (links st) = true)
        by (apply existsb_samePair; now exists l).
      congruence.
Qed.

Lemma decidesRemoval_generic (mismatch : Tower.t -> Tower.t -> bool)
    (ok excluded : num -> num -> bool) :
  (forall a b, excluded (towerFreq a) (towerFreq b) = false ->
               mismatch a b = negb (ok (towerFreq a) (towerFreq b))) ->
  decidesRemoval ok excluded (updateTower mismatch).
Proof.
  intros Hok st id patch l a b Hl Ha Hb Hx.
  rewrite updateTower_towers in Ha, Hb.
  rewrite updateTower_links, filter_In. unfold endpointsMatch.
  rewrite Ha, Hb, (Hok a b Hx), negb_involutive. tauto.
Qed.

(** C2 (as amended).  In part_000 [createLink] accepts two towers exactly
    when their parsed frequencies are within relative tolerance 1e-6 of the
    larger one, and [updateTower] keeps a link by the same test (pairs of
    equal infinities aside); in App.js both functions require the parsed
    frequencies to be identical ([===]) instead. *)
Theorem C2_frequency_criterion :
  decidesCreation withinTolerance Part000.createLink
  /\ decidesRemoval withinTolerance sameInfinity Part000.updateTower
  /\ decidesCreation eqb App.createLink
  /\ decidesRemoval eqb neverExcluded App.updateTower.
Proof.
  split; [|split; [|split]].
  - apply decidesCreation_generic. intros a b.
    now rewrite canLink_withinTolerance.
  - apply decidesRemoval_generic. intros a b.
    apply freqInvalid_withinTolerance.
  - apply decidesCreation_generic. reflexivity.
  - apply decidesRemoval_generic. reflexivity.
Qed.

(** C2 on the retuned pair: part_000 accepts 5 GHz against 5.000001 GHz and
    keeps their link. *)
Lemma C2_frequency_criterion_witness :
  snd (Part000.createLink 1 2 Sample.detuned)
  = withNewLink Sample.detuned 1 2
      (Tower.mk 1 (of_decimal false 225 (-1)) (of_decimal false 775 (-1))
                "5 GHz")
  /\ In (Link.mk 1 1 2 "5 GHz" None)
        (links (Part000.updateTower 2 (Patch.ofFreq "5.000001 GHz")
                  Sample.linked)).
Proof.
  destruct C2_frequency_criterion as [Hc [Hr _]]. split.
  - destruct (Hc Sample.detuned 1 2
                (Tower.mk 1 (of_decimal false 225 (-1))
                          (of_decimal false 775 (-1)) "5 GHz")
                (Tower.mk 2 (of_Z 22) (of_Z 77) "5.000001 GHz")
                ltac:(discriminate) eq_refl eq_refl) as [_ H].
    destruct (H ltac:(vm_compute; reflexivity)) as [E|E]; [|exact E].
    apply (f_equal message) in E. vm_compute in E. discriminate.
  - apply (proj2 (Hr Sample.linked 2 (Patch.ofFreq "5.000001 GHz")
              (Link.mk 1 1 2 "5 GHz" None)
              (Tower.mk 1 (of_decimal false 225 (-1))
                        (of_decimal false 775 (-1)) "5 GHz")
              (Tower.mk 2 (of_Z 22) (of_Z 77) "5.000001 GHz")
              (or_introl eq_refl) eq_refl eq_refl
              ltac:(vm_compute; reflexivity))).
    vm_compute; reflexivity.
Defined.

(** C2 (as stated) fails on App.js: 5 GHz and 5.000001 GHz are within the
    tolerance, yet [createLink] reports a mismatch and [updateTower] drops an
    existing link between the two towers. *)
Lemma C2_counterexample :
  withinTolerance (parseFreqHz "5 GHz") (parseFreqHz "5.000001 GHz") = true
  /\ snd (App.createLink 1 2 Sample.detuned)
     = setMessage "Frequencies do not match" Sample.detuned
  /\ links Sample.linked = [Link.mk 1 1 2 "5 GHz" None]
  /\ links (App.updateTower 2 (Patch.ofFreq "5.000001 GHz") Sample.linked)
     = [].
Proof. split; [|split; [|split]]; vm_compute; reflexivity. Qed.

(** The pairs left open in C2: in part_000 two towers at [+Infinity] are
    refused by [createLink], but a link between them survives [updateTower],
    because [NaN > x] and [NaN <= x] are both false. *)
Lemma Part000_equal_infinities :
  map towerFreq (towers Sample.bothInfinite) = [Infinity; Infinity]
  /\ links Sample.bothInfinite = [Link.mk 1 1 2 "5 GHz" None]
  /\ snd (Part000.createLink 1 2 (removeLink 1 Sample.bothInfinite))
     = setMessage "Frequencies do not match"
         (removeLink 1 Sample.bothInfinite).
Proof. split; [|split]; vm_compute; reflexivity. Qed.

(* ================================================================== *)
(** * updateTower *)
(* ================================================================== *)






(** C5 (as stated) fails on a hub.  Towers 2 and 3 are both linked to
    tower 1; retuning tower 1 so that it no longer matches tower 2 removes
    the link 1 - 2 and, with it, the link 1 - 3: not "exactly that link and
    no others".  Both implementations. *)
Lemma C5_counterexample :
  links star = [Link.mk 1 1 2 "5 GHz" None; Link.mk 2 1 3 "5 GHz" None]
  /\ links (App.updateTower 1 (Patch.ofFreq "2.4 GHz") star) = []
  /\ links (Part000.updateTower 1 (Patch.ofFreq "2.4 GHz") star) = []
  /\ In (Link.mk 2 1 3 "5 GHz" None) (links star)
  /\ ~ In (Link.mk 2 1 3 "5 GHz" None)
         (links (App.updateTower 1 (Patch.ofFreq "2.4 GHz") star))
  /\ ~ In (Link.mk 2 1 3 "5 GHz" None)
         (links (Part000.updateTower 1 (Patch.ofFreq "2.4 GHz") star)).
Proof.
  assert (E1 : links (App.updateTower 1 (Patch.ofFreq "2.4 GHz") star) = [])
    by (vm_compute; reflexivity).
  assert (E2 : links (Part000.updateTower 1 (Patch.ofFreq "2.4 GHz") star) = [])
    by (vm_compute; reflexivity).
  split; [vm_compute; reflexivity|].
  split; [exact E1|]. split; [exact E2|].
  split; [vm_compute; right; left; reflexivity|].
  rewrite E1, E2. split; intros F; exact F.
Qed.

(* ================================================================== *)
(** * The ellipse sampler *)
(* ================================================================== *)

Section EllipseFacts.

Context {M : MathLib}.
Variables centerLat centerLon bearing semiMajor semiMinor : num.
Variable steps : nat.

Let pt (i : nat) : num * num :=
  ellipsePoint centerLat centerLon bearing semiMajor semiMinor steps i.

(** The loop pushes the vertices of the indices from [i] up to [steps], as
    far as the fuel goes. *)
Lemma ellipseLoop_eq (fuel i : nat) (points : list (num * num)) :
  ellipseLoop centerLat centerLon bearing semiMajor semiMinor steps fuel i
    points
  = (points ++ map pt (seq i (Nat.min fuel (S steps - i))))%list.
Proof.
  revert i points.
  induction fuel as [|fuel IH]; intros i points; cbn [ellipseLoop].
  - simpl. now rewrite app_nil_r.
  - destruct (i <=? steps)%nat eqn:E.
    + apply Nat.leb_le in E. rewrite IH, <- app_assoc.
      assert (H : (S steps - i)%nat = S (S steps - S i)) by lia.
      rewrite H. reflexivity.
    + apply Nat.leb_gt in E.
      replace (S steps - i)%nat with 0 by lia.
      rewrite Nat.min_0_r. simpl. now rewrite app_nil_r.
Qed.

(** With the fuel the implementations give it, the loop runs to its end. *)
Lemma ellipseLoop_all :
  ellipseLoop centerLat centerLon bearing semiMajor semiMinor steps
    (S (S steps)) 0 []
  = map pt (seq 0 (S steps)).
Proof.
  rewrite ellipseLoop_eq.
  assert (H : Nat.min (S (S steps)) (S steps - 0) = S steps) by lia.
  rewrite H. reflexivity.
Qed.

Lemma ellipseLoop_length :
  List.length (ellipseLoop centerLat centerLon bearing semiMajor semiMinor
                 steps (S (S steps)) 0 [])
  = S steps.
Proof. now rewrite ellipseLoop_all, length_map, length_seq. Qed.

Lemma ellipseLoop_nth (i : nat) :
  i <= steps ->
  nth_error (ellipseLoop centerLat centerLon bearing semiMajor semiMinor
               steps (S (S steps)) 0 []) i
  = Some (pt i).
Proof.
  intros Hi. rewrite ellipseLoop_all. rewrite nth_error_map.
  rewrite nth_error_seq.
  replace (i <? S steps)%nat with true by (symmetry; apply Nat.ltb_lt; lia).
  reflexivity.
Qed.

End EllipseFacts.

(** C4 (as amended).  For every sample index [i <= steps], the [i]-th point
    emitted by either generator is the point the specification describes,
    taken with that implementation's axes: part_000 uses
    [semiMajor = distance / 2] and [semiMinor = r]; App.js shrinks them to
    [semiMajor = (distance / 2) / 2000] and [semiMinor = r / 50]. *)
Theorem C4_ellipse_points :
  forall (M : MathLib) (lat1 lon1 lat2 lon2 r : num) (steps : option nat)
         (i : nat),
    i <= stepsOrDefault steps ->
    let a := LatLng.mk lat1 lon1 in
    let b := LatLng.mk lat2 lon2 in
    let d := distanceMeters a b in
    nth_error (Part000.generateFresnelEllipse lat1 lon1 lat2 lon2 r steps) i
    = Some (claimedPoint a b (d / c_2) r (stepsOrDefault steps) i)
    /\ nth_error (App.generateFresnelEllipse lat1 lon1 lat2 lon2 r steps) i
       = Some (claimedPoint a b ((d / c_2) / c_2000) (r / c_50)
                 (stepsOrDefault steps) i).
Proof.
  intros M lat1 lon1 lat2 lon2 r steps i Hi a b d.
  unfold Part000.generateFresnelEllipse, App.generateFresnelEllipse.
  rewrite !ellipseLoop_nth by exact Hi. split; reflexivity.
Qed.

(** C4 with the reference library, four segments, index 1. *)
Lemma C4_ellipse_points_witness :
  nth_error (Part000.generateFresnelEllipse (M := RefMath.lib)
               (of_Z 22) (of_Z 77) (of_Z 23) (of_Z 78) (of_Z 1000) (Some 4)) 1
  = Some (claimedPoint (M := RefMath.lib)
            (LatLng.mk (of_Z 22) (of_Z 77)) (LatLng.mk (of_Z 23) (of_Z 78))
            (distanceMeters (M := RefMath.lib)
               (LatLng.mk (of_Z 22) (of_Z 77)) (LatLng.mk (of_Z 23) (of_Z 78))
             / c_2)
            (of_Z 1000) 4 1).
Proof.
  refine (proj1 (C4_ellipse_points RefMath.lib (of_Z 22) (of_Z 77) (of_Z 23)
                   (of_Z 78) (of_Z 1000) (Some 4) 1 _)).
  cbn [stepsOrDefault]. lia.
Defined.

(** C4 (as stated) fails on App.js: its minor semi-axis for a radius of
    1000 m is 20 m, its major semi-axis is a 2000th of half the distance, and
    with the reference library the point of index 1 out of 4 is not the one
    the unscaled axes give. *)
Lemma C4_counterexample :
  App.semiMinor (of_Z 1000) = of_Z 20
  /\ App.semiMajor (of_Z 80000) = of_Z 20
  /\ nth_error (App.generateFresnelEllipse (M := RefMath.lib)
                  (of_Z 22) (of_Z 77) (of_Z 23) (of_Z 78) (of_Z 1000)
                  (Some 4)) 1
     <> Some (claimedPoint (M := RefMath.lib)
                (LatLng.mk (of_Z 22) (of_Z 77)) (LatLng.mk (of_Z 23) (of_Z 78))
                (distanceMeters (M := RefMath.lib)
                   (LatLng.mk (of_Z 22) (of_Z 77))
                   (LatLng.mk (of_Z 23) (of_Z 78)) / c_2)
                (of_Z 1000) 4 1).
Proof.
  split; [vm_compute; reflexivity|]. split; [vm_compute; reflexivity|].
  vm_compute. intros H. discriminate H.
Qed.

(* ================================================================== *)
(** * Points that are not numbers *)
(* ================================================================== *)

#[export] Instance RefMath_laws : MathLaws RefMath.lib.
Proof.
  constructor; try reflexivity.
  intros y. simpl. unfold RefMath.atan2. now rewrite orb_true_r.
Qed.

Section NaNFacts.

Context {M : MathLib} {L : MathLaws M}.


(** A positive integer converts to a non-negative number. *)
Lemma binary_round_aux_sign (mx ex : Z) (lx : location) :
  (0 <= mx)%Z ->
  signbit (binary_round_aux prec emax false mx ex lx) = false.
Proof.
  intros H.
  pose proof (binary_round_aux_not_NaN false mx ex lx H) as Hn.
  unfold binary_round_aux in *.
  destruct (shr_fexp prec emax mx ex lx) as [mrs' e'].
  destruct (shr_fexp prec emax _ e' loc_Exact) as [mrs'' e''].
  destruct (shr_m mrs''); try reflexivity; try discriminate.
  destruct (_ <=? _)%Z; reflexivity.
Qed.






End NaNFacts.




(* ================================================================== *)
(** * The frequency parser *)
(* ================================================================== *)

(** The guard [if (!freq) return NaN] changes nothing: the empty string takes
    the last branch, where [parseFloat] already yields NaN. *)
Lemma parseFreqHz_unfold (freq : string) :
  parseFreqHz freq
  = let s := toLowerCase (trim (of_string freq)) in
    if endsWith s (of_string "ghz") then parseFloat s * c_1e9
    else if endsWith s (of_string "mhz") then parseFloat s * c_1e6
    else if endsWith s (of_string "hz") then parseFloat s
    else
      let n := parseFloat s in
      if isNaN n then NaN
      else if n >=? c_1 then n * c_1e9 else n * c_1e6.
Proof. destruct freq; reflexivity. Qed.







(* ================================================================== *)
(** * Strings and literals *)
(* ================================================================== *)



Lemma of_string_of_list (l : chars) : of_string (string_of_list_ascii l) = l.
Proof. apply list_ascii_of_string_of_list_ascii. Qed.

(* ================================================================== *)
(** * More on binary64 arithmetic *)
(* ================================================================== *)

Lemma eqb_sym (a b : num) : (a === b) = (b === a).
Proof.
  unfold eqb, SFeqb. rewrite (SFcompare_antisym b a).
  destruct (SFcompare b a) as [[]|]; reflexivity.
Qed.

Lemma ltb_antisym (a b : num) : ltb a b = true -> ltb b a = false.
Proof.
  unfold ltb, SFltb. rewrite (SFcompare_antisym a b).
  destruct (SFcompare a b) as [[]|]; simpl; congruence.
Qed.

(** Numbers that compare equal are the same, up to the sign of zero. *)
Lemma compare_Eq_zero_or_same (a b : num) :
  SFcompare a b = Some Eq ->
  a = b \/ ((exists s, a = S754_zero s) /\ (exists s, b = S754_zero s)).
Proof.
  destruct a as [[]|[]| |[] ma ea], b as [[]|[]| |[] mb eb]; simpl;
    intros H; try discriminate; try (now left);
    try (right; split; eexists; reflexivity);
    left; destruct (ea ?= eb)%Z eqn:Ee; try discriminate;
    apply Z.compare_eq in Ee; subst eb;
    (assert (Em : (ma ?= mb)%positive = Eq)
       by (unfold Pos.compare; destruct (Pos.compare_cont Eq ma mb);
           simpl in H; congruence));
    apply Pos.compare_eq in Em; now subst mb.
Qed.

Lemma max_comm (a b : num) : max a b = max b a.
Proof.
  destruct (ltb a b) eqn:Eab.
  - pose proof (ltb_antisym a b Eab) as Eba.
    destruct a as [[]| | |], b as [[]| | |]; try discriminate;
      unfold max; rewrite ?Eab, ?Eba; reflexivity.
  - destruct (ltb b a) eqn:Eba.
    + destruct a as [[]| | |], b as [[]| | |]; try discriminate;
        unfold max; rewrite ?Eab, ?Eba; reflexivity.
    + assert (H : isNaN a = true \/ isNaN b = true \/ SFcompare a b = Some Eq).
      { unfold ltb, SFltb in Eab, Eba. rewrite (SFcompare_antisym a b) in Eba.
        destruct (SFcompare a b) as [[]|] eqn:E; simpl in *;
          try discriminate; auto.
        destruct a, b; simpl in E; try discriminate; auto. }
      destruct H as [H|[H|H]].
      * apply isNaN_true in H. subst. destruct b as [[]| | |]; reflexivity.
      * apply isNaN_true in H. subst. destruct a as [[]| | |]; reflexivity.
      * destruct (compare_Eq_zero_or_same a b H) as [->|[[sa ->] [sb ->]]];
          [reflexivity | destruct sa, sb; reflexivity].
Qed.

Lemma abs_binary_round_aux (sx : bool) (mx ex : Z) (lx : location) :
  abs (binary_round_aux prec emax sx mx ex lx)
  = abs (binary_round_aux prec emax (negb sx) mx ex lx).
Proof.
  unfold binary_round_aux.
  destruct (shr_fexp prec emax mx ex lx) as [mrs' e'].
  destruct (shr_fexp prec emax _ e' loc_Exact) as [mrs'' e''].
  destruct (shr_m mrs''); try reflexivity.
  destruct (_ <=? _)%Z; reflexivity.
Qed.

Lemma abs_binary_normalize_opp (m e : Z) :
  abs (binary_normalize prec emax (- m) e false)
  = abs (binary_normalize prec emax m e false).
Proof.
  destruct m as [|p|p]; [reflexivity| |]; cbn [Z.opp binary_normalize];
    unfold binary_round; destruct (shl_align _ _ _);
    first [ apply (abs_binary_round_aux true)
          | apply (abs_binary_round_aux false) ].
Qed.

Lemma abs_sub_comm (a b : num) : abs (a - b) = abs (b - a).
Proof.
  destruct a as [sa|sa| |sa ma ea], b as [sb|sb| |sb mb eb];
    try reflexivity; try (destruct sa, sb; reflexivity).
  unfold sub, SFsub. rewrite (Z.min_comm eb ea).
  rewrite <- abs_binary_normalize_opp. f_equal. f_equal. lia.
Qed.

(* ================================================================== *)
(** * More on the store: links, ids and runs of handlers *)
(* ================================================================== *)

Lemma filter_all {A : Type} (p : A -> bool) (l : list A) :
  (forall x, In x l -> p x = true) -> filter p l = l.
Proof.
  induction l as [|x l IH]; intros H; cbn [filter]; [reflexivity|].
  rewrite (H x (or_introl eq_refl)), IH; [reflexivity|].
  intros y Hy. apply H. now right.
Qed.

Lemma filter_twice {A : Type} (p : A -> bool) (l : list A) :
  filter p (filter p l) = filter p l.
Proof.
  apply filter_all. intros x Hx. apply filter_In in Hx. tauto.
Qed.

Lemma filter_swap {A : Type} (p q : A -> bool) (l : list A) :
  filter p (filter q l) = filter q (filter p l).
Proof.
  induction l as [|x l IH]; [reflexivity|]. cbn [filter].
  destruct (q x) eqn:Eq, (p x) eqn:Ep; cbn [filter];
    rewrite ?Eq, ?Ep, IH; reflexivity.
Qed.

(** Link ids stay distinct when links are dropped. *)
Lemma link_ids_filter (p : Link.t -> bool) (ls : list Link.t) :
  NoDup (map Link.id ls) -> NoDup (map Link.id (filter p ls)).
Proof.
  induction ls as [|l ls IH]; intros Hnd; cbn [filter map]; [constructor|].
  apply NoDup_cons_iff in Hnd. destruct Hnd as [Hl Hls].
  destruct (p l); [|now apply IH].
  cbn [map]. apply NoDup_cons; [|now apply IH].
  intros Hin. apply Hl. apply in_map_iff in Hin. destruct Hin as [u [Eu Hu]].
  apply filter_In in Hu. apply in_map_iff. exists u. tauto.
Qed.

Lemma sameLink_refl (l : Link.t) : sameLink l l.
Proof. repeat split. Qed.

Lemma sameLink_trans (l1 l2 l3 : Link.t) :
  sameLink l1 l2 -> sameLink l2 l3 -> sameLink l1 l3.
Proof.
  unfold sameLink. intros [A1 [A2 [A3 A4]]] [B1 [B2 [B3 B4]]].
  repeat split; congruence.
Qed.

Lemma joins_sameLink (a b : nat) (l l' : Link.t) :
  sameLink l l' -> (joins a b l' <-> joins a b l).
Proof. unfold sameLink, joins. intros [_ [-> [-> _]]]. tauto. Qed.

Section LinksDistinct.

Lemma linksDistinct_filter (p : Link.t -> bool) (st st' : store) :
  links st' = filter p (links st) -> linkId st' = linkId st ->
  linksDistinct st -> linksDistinct st'.
Proof.
  intros Hl Hi [H1 H2 H3 H4]. constructor; rewrite ?Hl, ?Hi.
  - now apply link_ids_filter.
  - apply Forall_forall. intros l Hin. apply filter_In in Hin.
    rewrite Forall_forall in H2. now apply H2.
  - apply Forall_forall. intros l Hin. apply filter_In in Hin.
    rewrite Forall_forall in H3. now apply H3.
  - intros l1 l2 In1 In2. apply filter_In in In1, In2. apply H4; tauto.
Qed.

Lemma linksDistinct_same (st st' : store) :
  links st' = links st -> linkId st' = linkId st ->
  linksDistinct st -> linksDistinct st'.
Proof.
  intros Hl Hi. apply (linksDistinct_filter (fun _ => true)); [|exact Hi].
  rewrite Hl. symmetry. now apply filter_all.
Qed.

Lemma linksDistinct_map (g : Link.t -> Link.t) (st st' : store) :
  (forall x, sameLink x (g x)) ->
  links st' = map g (links st) -> linkId st' = linkId st ->
  linksDistinct st -> linksDistinct st'.
Proof.
  intros Hg Hl Hi [H1 H2 H3 H4]. constructor; rewrite ?Hl, ?Hi.
  - rewrite map_map.
    rewrite (map_ext (fun x => Link.id (g x)) Link.id); [exact H1|].
    intros x. apply (Hg x).
  - apply Forall_map. revert H2. apply Forall_impl. intros l.
    destruct (Hg l) as [-> _]. auto.
  - apply Forall_map. revert H3. apply Forall_impl. intros l.
    destruct (Hg l) as [_ [-> [-> _]]]. auto.
  - intros l1 l2 In1 In2 Hj.
    apply in_map_iff in In1, In2.
    destruct In1 as [x1 [<- In1]]. destruct In2 as [x2 [<- In2]].
    destruct (Hg x1) as [E1 [Ea [Eb _]]]. rewrite Ea, Eb in Hj.
    apply (joins_sameLink _ _ _ _ (Hg x2)) in Hj.
    rewrite E1. destruct (Hg x2) as [-> _]. now apply H4.
Qed.

Lemma linksDistinct_init (msg : string) : linksDistinct (initialStore msg).
Proof. constructor; simpl; try constructor. intros l1 l2 []. Qed.

Lemma linksDistinct_createLink (mismatch : Tower.t -> Tower.t -> bool)
    (aId bId : nat) (st : store) :
  linksDistinct st -> linksDistinct (snd (createLink mismatch aId bId st)).
Proof.
  intros Hd. unfold createLink.
  destruct (aId =? bId)%nat eqn:Eab; [exact Hd|].
  destruct (findTower (towers st) aId) as [a|]; [|exact Hd].
  destruct (findTower (towers st) bId) as [b|]; [|exact Hd].
  destruct (mismatch a b); [now apply (linksDistinct_same st)|].
  destruct (existsb (samePair aId bId) (links st)) eqn:Ex;
    [now apply (linksDistinct_same st)|].
  destruct Hd as [H1 H2 H3 H4]. apply Nat.eqb_neq in Eab.
  assert (Hnew : forall l, In l (links st) -> ~ joins aId bId l).
  { intros l Hl Hj.
    assert (E : existsb (samePair aId bId) (links st) = true)
      by (apply existsb_samePair; now exists l).
    congruence. }
  constructor; simpl.
  - rewrite map_app. cbn [map]. apply NoDup_app; [exact H1 | | ].
    + constructor; [intros [] | constructor].
    + intros k Hk [Hn|[]]. subst k. apply in_map_iff in Hk.
      destruct Hk as [l [Hk Hl]]. rewrite Forall_forall in H2.
      specialize (H2 l Hl). cbn in Hk. lia.
  - apply Forall_app. split.
    + revert H2. apply Forall_impl. intros; lia.
    + constructor; [cbn; lia | constructor].
  - apply Forall_app. split; [exact H3|].
    constructor; [exact Eab | constructor].
  - intros l1 l2 In1 In2 Hj. apply in_app_iff in In1, In2.
    destruct In1 as [In1|[<-|[]]], In2 as [In2|[<-|[]]].
    + now apply H4.
    + exfalso. apply (Hnew l1 In1). unfold joins in *. cbn in Hj.
      destruct Hj as [[Ha Hb]|[Ha Hb]]; [left | right]; split; congruence.
    + exfalso. apply (Hnew l2 In2). exact Hj.
    + reflexivity.
Qed.

End LinksDistinct.

Lemma issuesAbove_refl (st : store) : issuesAbove st st.
Proof.
  split; [lia|]. intros l Hl. left. exists l. split; [exact Hl|].
  apply sameLink_refl.
Qed.

Lemma issuesAbove_trans (s1 s2 s3 : store) :
  issuesAbove s1 s2 -> issuesAbove s2 s3 -> issuesAbove s1 s3.
Proof.
  intros [A1 A2] [B1 B2]. split; [lia|]. intros l3 H3.
  destruct (B2 l3 H3) as [[l2 [H2 S23]]|Hnew]; [|right; lia].
  destruct (A2 l2 H2) as [[l1 [H1 S12]]|Hnew].
  - left. exists l1. split; [exact H1|]. now apply (sameLink_trans l1 l2 l3).
  - right. destruct S23 as [-> _]. exact Hnew.
Qed.

Lemma issuesAbove_filter (p : Link.t -> bool) (st st' : store) :
  links st' = filter p (links st) -> linkId st' = linkId st ->
  issuesAbove st st'.
Proof.
  intros Hl Hi. split; [lia|]. rewrite Hl. intros l Hin.
  apply filter_In in Hin. left. exists l. split; [tauto|].
  apply sameLink_refl.
Qed.

Lemma issuesAbove_same (st st' : store) :
  links st' = links st -> linkId st' = linkId st -> issuesAbove st st'.
Proof.
  intros Hl Hi. apply (issuesAbove_filter (fun _ => true)); [|exact Hi].
  rewrite Hl. symmetry. now apply filter_all.
Qed.

Lemma issuesAbove_map (g : Link.t -> Link.t) (st st' : store) :
  (forall x, sameLink x (g x)) ->
  links st' = map g (links st) -> linkId st' = linkId st ->
  issuesAbove st st'.
Proof.
  intros Hg Hl Hi. split; [lia|]. rewrite Hl. intros l Hin.
  apply in_map_iff in Hin. destruct Hin as [x [<- Hx]].
  left. exists x. split; [exact Hx | apply Hg].
Qed.

Lemma issuesAbove_createLink (mismatch : Tower.t -> Tower.t -> bool)
    (aId bId : nat) (st : store) :
  issuesAbove st (snd (createLink mismatch aId bId st)).
Proof.
  unfold createLink.
  destruct (aId =? bId)%nat; [apply issuesAbove_refl|].
  destruct (findTower (towers st) aId) as [a|]; [|apply issuesAbove_refl].
  destruct (findTower (towers st) bId) as [b|]; [|apply issuesAbove_refl].
  destruct (mismatch a b); [now apply issuesAbove_same|].
  destruct (existsb _ _); [now apply issuesAbove_same|].
  split; simpl; [lia|]. intros l Hin. apply in_app_iff in Hin.
  destruct Hin as [Hin|[<-|[]]]; [|right; cbn; lia].
  left. exists l. split; [exact Hin | apply sameLink_refl].
Qed.

(** [onLinkClick] rewrites links in place, keeping all but the cached data. *)
Lemma App_onLinkClick_links (M : MathLib) (l : Link.t) (st : store) :
  exists g, (forall x, sameLink x (g x))
            /\ links (App.onLinkClick l st) = map g (links st).
Proof.
  unfold App.onLinkClick.
  destruct (findTower (towers st) (Link.aId l)) as [a|];
    [destruct (findTower (towers st) (Link.bId l)) as [b|]|].
  - eexists. split; [|reflexivity]. intros x. cbv beta.
    destruct (Link.id x =? Link.id l)%nat; repeat split.
  - exists (fun x => x). split; [intros; apply sameLink_refl|].
    symmetry. apply map_id.
  - exists (fun x => x). split; [intros; apply sameLink_refl|].
    symmetry. apply map_id.
Qed.

Lemma Part000_onLinkClick_links (M : MathLib) (l : Link.t) (st : store) :
  exists g, (forall x, sameLink x (g x))
            /\ links (Part000.onLinkClick l st) = map g (links st).
Proof.
  unfold Part000.onLinkClick.
  destruct (findTower (towers st) (Link.aId l)) as [a|];
    [destruct (findTower (towers st) (Link.bId l)) as [b|]|].
  - eexists. split; [|reflexivity]. intros x. cbv beta.
    destruct (Link.id x =? Link.id l)%nat; repeat split.
  - exists (fun x => x). split; [intros; apply sameLink_refl|].
    symmetry. apply map_id.
  - exists (fun x => x). split; [intros; apply sameLink_refl|].
    symmetry. apply map_id.
Qed.

Lemma App_onLinkClick_linkId (M : MathLib) (l : Link.t) (st : store) :
  linkId (App.onLinkClick l st) = linkId st
  /\ towers (App.onLinkClick l st) = towers st.
Proof.
  unfold App.onLinkClick.
  destruct (findTower (towers st) (Link.aId l));
    [destruct (findTower (towers st) (Link.bId l))|]; split; reflexivity.
Qed.

Lemma Part000_onLinkClick_linkId (M : MathLib) (l : Link.t) (st : store) :
  linkId (Part000.onLinkClick l st) = linkId st
  /\ towers (Part000.onLinkClick l st) = towers st.
Proof.
  unfold Part000.onLinkClick.
  destruct (findTower (towers st) (Link.aId l));
    [destruct (findTower (towers st) (Link.bId l))|]; split; reflexivity.
Qed.

Section MarkerClick.

Variable mismatch : Tower.t -> Tower.t -> bool.

Lemma markerClick_cases (tid : nat) (st : store) :
  (links (markerClick (createLink mismatch) tid st) = links st
   /\ linkId (markerClick (createLink mismatch) tid st) = linkId st
   /\ towers (markerClick (createLink mismatch) tid st) = towers st)
  \/ exists s, selectedTower st = Some s /\ s <> tid /\ 1 <= s
       /\ markerClick (createLink mismatch) tid st
          = setSelectedTower None (snd (createLink mismatch s tid st)).
Proof.
  unfold markerClick. destruct (selectedTower st) as [[|s]|].
  - left. repeat split.
  - destruct (S s =? tid)%nat eqn:E.
    + left. repeat split.
    + right. exists (S s). apply Nat.eqb_neq in E.
      repeat split; [exact E | lia].
  - left. repeat split.
Qed.

Lemma createLink_towers (aId bId : nat) (st : store) :
  towers (snd (createLink mismatch aId bId st)) = towers st.
Proof.
  unfold createLink. destruct (aId =? bId)%nat; [reflexivity|].
  destruct (findTower (towers st) aId) as [a|]; [|reflexivity].
  destruct (findTower (towers st) bId) as [b|]; [|reflexivity].
  destruct (mismatch a b); [reflexivity|].
  destruct (existsb _ _); reflexivity.
Qed.

Lemma markerClick_linksDistinct (tid : nat) (st : store) :
  linksDistinct st -> linksDistinct (markerClick (createLink mismatch) tid st).
Proof.
  intros Hd. destruct (markerClick_cases tid st) as [[Hl [Hi _]]|[s [_ [_ [_ E]]]]].
  - now apply (linksDistinct_same st).
  - rewrite E.
    apply (linksDistinct_same (snd (createLink mismatch s tid st)));
      [reflexivity | reflexivity |].
    now apply linksDistinct_createLink.
Qed.

Lemma markerClick_issuesAbove (tid : nat) (st : store) :
  issuesAbove st (markerClick (createLink mismatch) tid st).
Proof.
  destruct (markerClick_cases tid st) as [[Hl [Hi _]]|[s [_ [_ [_ E]]]]].
  - now apply issuesAbove_same.
  - rewrite E.
    apply (issuesAbove_trans st (snd (createLink mismatch s tid st)));
      [apply issuesAbove_createLink|].
    now apply issuesAbove_same.
Qed.

End MarkerClick.

Lemma App_handler_linksDistinct (M : MathLib) (h : store -> store) :
  App_handler h -> forall st, linksDistinct st -> linksDistinct (h st).
Proof.
  intros [pos|id f|id|aId bId|l|tid|t l m] st Hd.
  - now apply (linksDistinct_same st).
  - eapply (linksDistinct_filter _ st); [apply updateTower_links | reflexivity | exact Hd].
  - eapply (linksDistinct_filter _ st); [reflexivity | reflexivity | exact Hd].
  - now apply linksDistinct_createLink.
  - destruct (App_onLinkClick_links M l st) as [g [Hg Hl]].
    eapply (linksDistinct_map _ st); [exact Hg | exact Hl | | exact Hd].
    apply App_onLinkClick_linkId.
  - now apply markerClick_linksDistinct.
  - now apply (linksDistinct_same st).
Qed.

Lemma Part000_handler_linksDistinct (M : MathLib) (h : store -> store) :
  Part000_handler h -> forall st, linksDistinct st -> linksDistinct (h st).
Proof.
  intros [pos|id f|id|aId bId|id|l|tid|t l m] st Hd.
  - now apply (linksDistinct_same st).
  - eapply (linksDistinct_filter _ st); [apply updateTower_links | reflexivity | exact Hd].
  - eapply (linksDistinct_filter _ st); [reflexivity | reflexivity | exact Hd].
  - now apply linksDistinct_createLink.
  - eapply (linksDistinct_filter _ st); [reflexivity | reflexivity | exact Hd].
  - destruct (Part000_onLinkClick_links M l st) as [g [Hg Hl]].
    eapply (linksDistinct_map _ st); [exact Hg | exact Hl | | exact Hd].
    apply Part000_onLinkClick_linkId.
  - now apply markerClick_linksDistinct.
  - now apply (linksDistinct_same st).
Qed.

Lemma App_handler_issuesAbove (M : MathLib) (h : store -> store) :
  App_handler h -> forall st, issuesAbove st (h st).
Proof.
  intros [pos|id f|id|aId bId|l|tid|t l m] st.
  - now apply issuesAbove_same.
  - eapply (issuesAbove_filter _ st); [apply updateTower_links | reflexivity].
  - eapply (issuesAbove_filter _ st); reflexivity.
  - apply issuesAbove_createLink.
  - destruct (App_onLinkClick_links M l st) as [g [Hg Hl]].
    eapply (issuesAbove_map _ st); [exact Hg | exact Hl |].
    apply App_onLinkClick_linkId.
  - apply markerClick_issuesAbove.
  - now apply issuesAbove_same.
Qed.

Lemma Part000_handler_issuesAbove (M : MathLib) (h : store -> store) :
  Part000_handler h -> forall st, issuesAbove st (h st).
Proof.
  intros [pos|id f|id|aId bId|id|l|tid|t l m] st.
  - now apply issuesAbove_same.
  - eapply (issuesAbove_filter _ st); [apply updateTower_links | reflexivity].
  - eapply (issuesAbove_filter _ st); reflexivity.
  - apply issuesAbove_createLink.
  - eapply (issuesAbove_filter _ st); reflexivity.
  - destruct (Part000_onLinkClick_links M l st) as [g [Hg Hl]].
    eapply (issuesAbove_map _ st); [exact Hg | exact Hl |].
    apply Part000_onLinkClick_linkId.
  - apply markerClick_issuesAbove.
  - now apply issuesAbove_same.
Qed.

(** Along a run the link invariant is kept and ids are only issued above
    the counter. *)
Lemma run_links (handler : (store -> store) -> Prop) :
  (forall h, handler h -> forall st, linksDistinct st -> linksDistinct (h st)) ->
  (forall h, handler h -> forall st, issuesAbove st (h st)) ->
  forall st st', run handler st st' ->
    issuesAbove st st' /\ (linksDistinct st -> linksDistinct st').
Proof.
  intros Hd Hi st st' Hrun. induction Hrun as [st|st st' h _ [IH1 IH2] Hh].
  - split; [apply issuesAbove_refl | auto].
  - split; [|intros H; apply (Hd h Hh), IH2, H].
    apply (issuesAbove_trans st st' (h st')); [exact IH1 | now apply Hi].
Qed.

(** Within a store that satisfies the invariant, an id names one link. *)
Lemma link_by_id (st : store) (l1 l2 : Link.t) :
  linksDistinct st -> In l1 (links st) -> In l2 (links st) ->
  Link.id l1 = Link.id l2 -> l1 = l2.
Proof.
  intros [H1 _ _ _]. induction (links st) as [|x ls IH]; [intros []|].
  cbn [map] in H1. apply NoDup_cons_iff in H1. destruct H1 as [Hx Hls].
  intros [->|In1] [->|In2] E; auto.
  - elim Hx. rewrite E. now apply in_map.
  - elim Hx. rewrite <- E. now apply in_map.
Qed.

Lemma run_same_link (st st' : store) (l0 l' : Link.t) :
  issuesAbove st st' -> linksDistinct st ->
  In l0 (links st) -> In l' (links st') -> Link.id l' = Link.id l0 ->
  sameLink l0 l'.
Proof.
  intros [_ Hi] Hd H0 H' E. destruct (Hi l' H') as [[l [Hl S]]|Hnew].
  - assert (l = l0).
    { apply (link_by_id st); auto. destruct S as [S _]. congruence. }
    now subst l.
  - destruct Hd as [_ H2 _ _]. rewrite Forall_forall in H2.
    specialize (H2 l0 H0). lia.
Qed.

(* ================================================================== *)
(** * Further properties of the handlers *)
(* ================================================================== *)

(** X1.  [addTower] appends one tower at the clicked position with the
    default frequency; its id is at least 1 and larger than the id of every
    tower currently in the store, hence not in use; links and the link-id
    counter are untouched.  Both implementations. *)
Theorem X1_addTower_fresh_id :
  forall (pos : LatLng.t) (st : store),
  exists k : nat,
    towers (App.addTower pos st)
    = (towers st ++ [Tower.mk k (LatLng.lat pos) (LatLng.lng pos) "5 GHz"])%list
    /\ towers (Part000.addTower pos st) = towers (App.addTower pos st)
    /\ 1 <= k
    /\ Forall (fun t => Tower.id t < k) (towers st)
    /\ ~ In k (map Tower.id (towers st))
    /\ links (App.addTower pos st) = links st
    /\ linkId (App.addTower pos st) = linkId st.
Proof.
  intros pos st. exists (newTowerId (towers st)).
  split; [reflexivity|]. split; [reflexivity|].
  split; [apply newTowerId_positive|].
  split; [apply newTowerId_above|].
  split; [apply newTowerId_fresh|]. split; reflexivity.
Qed.

(** X2.  In every store the interface can reach, link ids are pairwise
    distinct and below the [linkId] counter, no link joins a tower to
    itself, and no two links join the same unordered pair of towers.  Both
    implementations. *)
Theorem X2_links_distinct :
  forall (M : MathLib) (st : store),
    (App.reachable st -> linksDistinct st)
    /\ (Part000.reachable st -> linksDistinct st).
Proof.
  intros M st. split.
  - induction 1 as [msg|st pos _ IH|st id f _ IH|st id _ IH|st aId bId _ IH
                   |st l _ IH Hl|st t l m _ IH].
    + apply linksDistinct_init.
    + apply (App_handler_linksDistinct M _ (App_h_addTower pos) st IH).
    + apply (App_handler_linksDistinct M _ (App_h_updateTower id f) st IH).
    + apply (App_handler_linksDistinct M _ (App_h_removeTower id) st IH).
    + apply (App_handler_linksDistinct M _ (App_h_createLink aId bId) st IH).
    + apply (App_handler_linksDistinct M _ (App_h_onLinkClick l) st IH).
    + apply (App_handler_linksDistinct M _ (App_h_display t l m) st IH).
  - induction 1 as [msg|st pos _ IH|st id f _ IH|st id _ IH|st aId bId _ IH
                   |st id _ IH|st l _ IH Hl|st t l m _ IH].
    + apply linksDistinct_init.
    + apply (Part000_handler_linksDistinct M _ (Part000_h_addTower pos) st IH).
    + apply (Part000_handler_linksDistinct M _
               (Part000_h_updateTower id f) st IH).
    + apply (Part000_handler_linksDistinct M _
               (Part000_h_removeTower id) st IH).
    + apply (Part000_handler_linksDistinct M _
               (Part000_h_createLink aId bId) st IH).
    + apply (Part000_handler_linksDistinct M _
               (Part000_h_removeLink id) st IH).
    + apply (Part000_handler_linksDistinct M _
               (Part000_h_onLinkClick l) st IH).
    + apply (Part000_handler_linksDistinct M _
               (Part000_h_display t l m) st IH).
Qed.

(** X2 on the chain 1 - 2 - 3. *)
Lemma X2_links_distinct_witness :
  linksDistinct Sample.chain
  /\ map Link.id (links Sample.chain) = [1; 2]
  /\ linkId Sample.chain = 3.
Proof.
  split; [|split; vm_compute; reflexivity].
  apply (proj1 (X2_links_distinct RefMath.lib Sample.chain)).
  unfold Sample.chain, Sample.threeTowers, Sample.twoTowers, Sample.empty.
  repeat (first [ apply App.reach_createLink
                | apply (App.reach_addTower (M := RefMath.lib))
                | apply App.reach_init ]).
Defined.

(** X3.  Link ids are never reused.  Along any run of handlers that starts
    in a store satisfying the link invariant, the [linkId] counter does not
    decrease, the invariant is kept, a later link that carries the id of a
    link of the start store is that link (same endpoints, same frequency
    text), and every other later link has an id the counter had not reached
    at the start; so the id of a removed link is not given to a new link.
    Both implementations. *)
Theorem X3_link_ids_never_reused :
  forall (M : MathLib) (st st' : store),
    run App_handler st st' \/ run Part000_handler st st' ->
    linksDistinct st ->
    linkId st <= linkId st'
    /\ linksDistinct st'
    /\ (forall l0 l', In l0 (links st) -> In l' (links st') ->
                      Link.id l' = Link.id l0 -> sameLink l0 l')
    /\ (forall l', In l' (links st') ->
                   (forall l0, In l0 (links st) -> Link.id l0 <> Link.id l') ->
                   linkId st <= Link.id l').
Proof.
  intros M st st' Hrun Hd.
  assert (H : issuesAbove st st' /\ (linksDistinct st -> linksDistinct st')).
  { destruct Hrun as [Hrun|Hrun].
    - exact (run_links App_handler (App_handler_linksDistinct M)
               (App_handler_issuesAbove M) st st' Hrun).
    - exact (run_links Part000_handler (Part000_handler_linksDistinct M)
               (Part000_handler_issuesAbove M) st st' Hrun). }
  destruct H as [Hi Hd']. split; [apply Hi|]. split; [now apply Hd'|].
  split.
  - intros l0 l' H0 H' E. now apply (run_same_link st st').
  - intros l' H' Hnone. destruct Hi as [_ Hi].
    destruct (Hi l' H') as [[l [Hl S]]|Hnew]; [|exact Hnew].
    elim (Hnone l Hl). destruct S as [S _]. congruence.
Qed.

(** X3 on a run of part_000: link 1 is removed and the pair is linked again;
    the new link is numbered 2. *)
Lemma X3_link_ids_never_reused_witness :
  links Sample.linked = [Link.mk 1 1 2 "5 GHz" None]
  /\ links relinked = [Link.mk 2 1 2 "5 GHz" None]
  /\ linkId Sample.linked <= linkId relinked
  /\ linksDistinct relinked.
Proof.
  assert (Hd : linksDistinct Sample.linked).
  { unfold Sample.linked, App.createLink.
    apply linksDistinct_createLink.
    apply (linksDistinct_same Sample.empty);
      [reflexivity | reflexivity | apply linksDistinct_init]. }
  assert (Hrun : run (Part000_handler (M := RefMath.lib)) Sample.linked relinked).
  { unfold relinked.
    refine (@run_call _ _ (Part000.removeLink 1 Sample.linked)
              (fun st => snd (Part000.createLink 1 2 st)) _
              (Part000_h_createLink 1 2)).
    refine (@run_call _ _ Sample.linked (Part000.removeLink 1) _
              (Part000_h_removeLink 1)).
    apply run_done. }
  destruct (X3_link_ids_never_reused RefMath.lib Sample.linked relinked
              (or_intror Hrun) Hd) as [H1 [H2 _]].
  split; [vm_compute; reflexivity|]. split; [vm_compute; reflexivity|].
  split; [exact H1 | exact H2].
Defined.

Lemma freqDiffers_sym (a b : Tower.t) :
  App.freqDiffers a b = App.freqDiffers b a.
Proof. unfold App.freqDiffers, neqb. now rewrite eqb_sym. Qed.

Lemma canLink_sym (a b : Tower.t) : Part000.canLink a b = Part000.canLink b a.
Proof.
  unfold Part000.canLink. now rewrite orb_comm, abs_sub_comm, max_comm.
Qed.

Lemma freqInvalid_sym (a b : Tower.t) :
  Part000.freqInvalid a b = Part000.freqInvalid b a.
Proof.
  unfold Part000.freqInvalid.
  rewrite (orb_comm (isNaN (parseFreqHz (Tower.freqStr a)))).
  now rewrite abs_sub_comm, max_comm.
Qed.

(** X4.  The frequency tests do not depend on the order of the two towers:
    the [!==] test of App.js, and [canLink] and the test of [updateTower] of
    part_000. *)
Theorem X4_frequency_tests_symmetric :
  forall a b : Tower.t,
    App.freqDiffers a b = App.freqDiffers b a
    /\ Part000.canLink a b = Part000.canLink b a
    /\ Part000.freqInvalid a b = Part000.freqInvalid b a.
Proof.
  intros a b. split; [apply freqDiffers_sym|].
  split; [apply canLink_sym | apply freqInvalid_sym].
Qed.

Lemma createLink_again (mismatch : Tower.t -> Tower.t -> bool)
    (st : store) (aId bId : nat) :
  (forall a b, mismatch a b = mismatch b a) ->
  ~ rejected mismatch st aId bId ->
  snd (createLink mismatch aId bId (snd (createLink mismatch aId bId st)))
  = setMessage "Link already exists" (snd (createLink mismatch aId bId st))
  /\ snd (createLink mismatch bId aId (snd (createLink mismatch aId bId st)))
     = setMessage "Link already exists"
         (snd (createLink mismatch aId bId st)).
Proof.
  intros Hsym Hn. unfold rejected in Hn.
  destruct (Nat.eq_dec aId bId) as [->|Hne]; [elim Hn; auto|].
  destruct (findTower (towers st) aId) as [a|] eqn:Ha; [|elim Hn; auto].
  destruct (findTower (towers st) bId) as [b|] eqn:Hb; [|elim Hn; auto].
  destruct (mismatch a b) eqn:Hm;
    [elim Hn; do 3 right; left; now exists a, b|].
  rewrite (createLink_success mismatch aId bId st a b Hne Ha Hb Hm)
    by (intros l Hl Hj; apply Hn; do 4 right; now exists l).
  cbn [snd].
  assert (Hin : In (Link.mk (linkId st) aId bId (Tower.freqStr a) None)
                   (links (withNewLink st aId bId a)))
    by (cbn; apply in_or_app; right; now left).
  split.
  - rewrite (createLink_duplicate mismatch aId bId
               (withNewLink st aId bId a) a b Hne Ha Hb Hm); [reflexivity|].
    eexists. split; [exact Hin|]. left. split; reflexivity.
  - rewrite Hsym in Hm.
    rewrite (createLink_duplicate mismatch bId aId
               (withNewLink st aId bId a) b a
               (fun E => Hne (eq_sym E)) Hb Ha Hm); [reflexivity|].
    eexists. split; [exact Hin|]. right. split; reflexivity.
Qed.

(** X5.  After a [createLink aId bId] that was not rejected, asking for the
    same pair again, in either orientation, creates nothing: the call only
    sets the message to "Link already exists".  Both implementations. *)
Theorem X5_createLink_twice :
  forall (st : store) (aId bId : nat),
    (~ rejected App.freqDiffers st aId bId ->
     snd (App.createLink aId bId (snd (App.createLink aId bId st)))
     = setMessage "Link already exists" (snd (App.createLink aId bId st))
     /\ snd (App.createLink bId aId (snd (App.createLink aId bId st)))
        = setMessage "Link already exists" (snd (App.createLink aId bId st)))
    /\ (~ rejected (fun a b => negb (Part000.canLink a b)) st aId bId ->
        snd (Part000.createLink aId bId (snd (Part000.createLink aId bId st)))
        = setMessage "Link already exists"
            (snd (Part000.createLink aId bId st))
        /\ snd (Part000.createLink bId aId
                  (snd (Part000.createLink aId bId st)))
           = setMessage "Link already exists"
               (snd (Part000.createLink aId bId st))).
Proof.
  intros st aId bId. split; intros Hn.
  - apply createLink_again; [|exact Hn].
    intros a b. apply freqDiffers_sym.
  - apply createLink_again; [|exact Hn].
    intros a b. f_equal. apply canLink_sym.
Qed.

(** X5 on two fresh towers: the first request for the pair 1 - 2 is not
    rejected, the second one and the reversed one are. *)
Lemma X5_createLink_twice_witness :
  ~ rejected App.freqDiffers Sample.twoTowers 1 2
  /\ snd (App.createLink 1 2 Sample.linked)
     = setMessage "Link already exists" Sample.linked
  /\ snd (App.createLink 2 1 Sample.linked)
     = setMessage "Link already exists" Sample.linked.
Proof.
  assert (Hn : ~ rejected App.freqDiffers Sample.twoTowers 1 2).
  { intros [H|[H|[H|[H|H]]]]; try discriminate H.
    - destruct H as (a & b & Ha & Hb & Hm).
      vm_compute in Ha, Hb.
      injection Ha as <-. injection Hb as <-.
      vm_compute in Hm. discriminate Hm.
    - destruct H as (l & Hl & _). exact Hl. }
  split; [exact Hn|].
  exact (proj1 (X5_createLink_twice Sample.twoTowers 1 2) Hn).
Defined.

(* ================================================================== *)
(** * removeLink, removeTower and updateTower once more *)
(* ================================================================== *)

(** Dropping the one link numbered [id] of a list whose ids are distinct
    cuts the list at that link and joins the two pieces. *)
Lemma filter_cut (id : nat) (ls : list Link.t) :
  NoDup (map Link.id ls) -> In id (map Link.id ls) ->
  exists pre l post,
    ls = (pre ++ l :: post)%list /\ Link.id l = id
    /\ filter (fun x => negb (Link.id x =? id)%nat) ls = (pre ++ post)%list.
Proof.
  induction ls as [|x ls IH]; intros Hnd Hin; [destruct Hin|].
  cbn [map] in Hnd. apply NoDup_cons_iff in Hnd. destruct Hnd as [Hx Hls].
  destruct (Nat.eq_dec (Link.id x) id) as [E|E].
  - exists [], x, ls. split; [reflexivity|]. split; [exact E|].
    cbn [filter app]. rewrite (proj2 (Nat.eqb_eq _ _) E). cbn [negb].
    apply filter_all. intros y Hy.
    destruct (Nat.eqb_spec (Link.id y) id) as [Ey|_]; [|reflexivity].
    elim Hx. rewrite E, <- Ey. now apply in_map.
  - destruct Hin as [Hin|Hin]; [contradiction|].
    destruct (IH Hls Hin) as (pre & l & post & E1 & E2 & E3).
    exists (x :: pre), l, post. split; [now rewrite E1|]. split; [exact E2|].
    cbn [filter]. rewrite (proj2 (Nat.eqb_neq _ _) E). cbn [negb app].
    now rewrite E3.
Qed.

(** X6.  [removeLink id] of part_000: afterwards the links are those of
    before whose id is not [id]; towers, counter, tower selection and
    message are untouched and no link is selected; removing again changes
    nothing; an id that no link carries leaves the links as they are; and
    when link ids are distinct (as in every reachable store) and some link
    carries [id], exactly that one link is cut out, the others keeping their
    order. *)
Theorem X6_removeLink :
  forall (id : nat) (st : store),
    (forall l, In l (links (Part000.removeLink id st))
               <-> In l (links st) /\ Link.id l <> id)
    /\ towers (Part000.removeLink id st) = towers st
    /\ linkId (Part000.removeLink id st) = linkId st
    /\ selectedTower (Part000.removeLink id st) = selectedTower st
    /\ message (Part000.removeLink id st) = message st
    /\ selectedLink (Part000.removeLink id st) = None
    /\ Part000.removeLink id (Part000.removeLink id st)
       = Part000.removeLink id st
    /\ (~ In id (map Link.id (links st)) ->
        links (Part000.removeLink id st) = links st)
    /\ (linksDistinct st -> In id (map Link.id (links st)) ->
        exists pre l post,
          links st = (pre ++ l :: post)%list /\ Link.id l = id
          /\ links (Part000.removeLink id st) = (pre ++ post)%list).
Proof.
  intros id st.
  assert (El : links (Part000.removeLink id st)
               = filter (fun x => negb (Link.id x =? id)%nat) (links st))
    by (destruct st; reflexivity).
  split.
  { intros l. rewrite El, filter_In, negb_true_iff, Nat.eqb_neq. tauto. }
  do 5 (split; [destruct st; reflexivity|]).
  split.
  { unfold Part000.removeLink, removeLink, setSelectedLink, setLinks.
    destruct st; cbn. now rewrite filter_twice. }
  split.
  - intros Hn. rewrite El. apply filter_all. intros x Hx.
    destruct (Nat.eqb_spec (Link.id x) id) as [E|_]; [|reflexivity].
    elim Hn. rewrite <- E. now apply in_map.
  - intros Hd Hin. rewrite El. apply filter_cut; [apply Hd | exact Hin].
Qed.

(** X6 on the chain 1 - 2 - 3: removing link 1 leaves link 2. *)
Lemma X6_removeLink_witness :
  linksDistinct Sample.chain
  /\ In 1 (map Link.id (links Sample.chain))
  /\ exists pre l post,
       links Sample.chain = (pre ++ l :: post)%list /\ Link.id l = 1
       /\ links (Part000.removeLink 1 Sample.chain) = (pre ++ post)%list.
Proof.
  assert (Hd : linksDistinct Sample.chain).
  { unfold Sample.chain, App.createLink.
    do 2 apply linksDistinct_createLink.
    apply (linksDistinct_same Sample.empty);
      [reflexivity | reflexivity | apply linksDistinct_init]. }
  assert (Hin : In 1 (map Link.id (links Sample.chain)))
    by (vm_compute; left; reflexivity).
  split; [exact Hd|]. split; [exact Hin|].
  exact (proj2 (proj2 (proj2 (proj2 (proj2 (proj2 (proj2 (proj2
           (X6_removeLink 1 Sample.chain)))))))) Hd Hin).
Defined.

Lemma endpoints_present (mismatch : Tower.t -> Tower.t -> bool)
    (ts : list Tower.t) (l : Link.t) :
  endpointsMatch mismatch ts l = true ->
  findTower ts (Link.aId l) <> None /\ findTower ts (Link.bId l) <> None.
Proof.
  unfold endpointsMatch.
  destruct (findTower ts (Link.aId l)); [|discriminate].
  destruct (findTower ts (Link.bId l)); [|discriminate].
  intros _. split; discriminate.
Qed.

(** X7.  [removeTower] (the same function in both files): removing a tower
    twice is removing it once; two removals commute; and in a well-formed
    store, removing an id that no tower carries changes neither the towers
    nor the links. *)
Theorem X7_removeTower_algebra :
  forall (id id2 : nat) (st : store),
    App.removeTower id (App.removeTower id st) = App.removeTower id st
    /\ App.removeTower id (App.removeTower id2 st)
       = App.removeTower id2 (App.removeTower id st)
    /\ Part000.removeTower id st = App.removeTower id st
    /\ (forall mismatch, wellFormed mismatch st ->
          findTower (towers st) id = None ->
          towers (App.removeTower id st) = towers st
          /\ links (App.removeTower id st) = links st).
Proof.
  intros id id2 st. split; [|split; [|split; [reflexivity|]]].
  - unfold App.removeTower, removeTower, setSelectedTower, setLinks,
      setTowers.
    destruct st; cbn. now rewrite !filter_twice.
  - unfold App.removeTower, removeTower, setSelectedTower, setLinks,
      setTowers.
    destruct st; cbn.
    now rewrite (filter_swap (fun t => negb (Tower.id t =? id)%nat)),
                (filter_swap (fun l => negb (Link.aId l =? id)%nat
                                       && negb (Link.bId l =? id)%nat)).
  - intros mismatch Hwf Hnone.
    assert (Et : towers (App.removeTower id st)
                 = filter (fun t => negb (Tower.id t =? id)%nat) (towers st))
      by (destruct st; reflexivity).
    assert (El : links (App.removeTower id st)
                 = filter (fun l => negb (Link.aId l =? id)%nat
                                    && negb (Link.bId l =? id)%nat) (links st))
      by (destruct st; reflexivity).
    split.
    + rewrite Et. apply filter_other_ids. now apply findTower_None.
    + rewrite El. apply filter_all. intros l Hl.
      pose proof (wf_links_valid Hwf) as Hv. rewrite Forall_forall in Hv.
      destruct (endpoints_present mismatch (towers st) l (Hv l Hl)) as [Ha Hb].
      destruct (Nat.eqb_spec (Link.aId l) id) as [E|_];
        [elim Ha; now rewrite E|].
      destruct (Nat.eqb_spec (Link.bId l) id) as [E|_];
        [elim Hb; now rewrite E|].
      reflexivity.
Qed.

(** X7 on the chain 1 - 2 - 3, where no tower is numbered 7. *)
Lemma X7_removeTower_algebra_witness :
  wellFormed App.freqDiffers Sample.chain
  /\ findTower (towers Sample.chain) 7 = None
  /\ towers (App.removeTower 7 Sample.chain) = towers Sample.chain
  /\ links (App.removeTower 7 Sample.chain) = links Sample.chain.
Proof.
  assert (Hwf : wellFormed App.freqDiffers Sample.chain).
  { apply (App_reachable_wellFormed RefMath.lib).
    unfold Sample.chain, Sample.threeTowers, Sample.twoTowers, Sample.empty.
    repeat (first [ apply App.reach_createLink
                  | apply (App.reach_addTower (M := RefMath.lib))
                  | apply App.reach_init ]). }
  assert (Hn : findTower (towers Sample.chain) 7 = None)
    by (vm_compute; reflexivity).
  split; [exact Hwf|]. split; [exact Hn|].
  exact (proj2 (proj2 (proj2 (X7_removeTower_algebra 7 7 Sample.chain)))
           App.freqDiffers Hwf Hn).
Defined.

Lemma patched_absent (id : nat) (p : Patch.t) (ts : list Tower.t) :
  ~ In id (map Tower.id ts) -> patched id p ts = ts.
Proof.
  intros Hn. unfold patched. rewrite <- (map_id ts) at 2.
  apply map_ext_in. intros t Ht.
  destruct (Nat.eqb_spec (Tower.id t) id) as [E|_]; [|reflexivity].
  elim Hn. rewrite <- E. now apply in_map.
Qed.

Lemma freqEditFrame_generic (mismatch : Tower.t -> Tower.t -> bool) :
  freqEditFrame mismatch (updateTower mismatch).
Proof.
  intros id f st. rewrite updateTower_towers.
  split; [now apply map_id_patched|].
  split.
  { unfold patched. rewrite map_map. apply map_ext. intros t.
    now destruct (Tower.id t =? id)%nat. }
  split.
  { intros t Ht E. unfold patched in Ht. apply in_map_iff in Ht.
    destruct Ht as [u [Eu _]]. subst t.
    destruct (Nat.eqb_spec (Tower.id u) id) as [_|Hne]; [reflexivity|].
    now elim Hne. }
  split.
  { intros k Hk. rewrite findTower_patched by reflexivity.
    now rewrite (proj2 (Nat.eqb_neq _ _) Hk). }
  split; [reflexivity|]. split; [reflexivity|].
  intros Hwf Hnone. apply findTower_None in Hnone.
  split; [now apply patched_absent|].
  rewrite updateTower_links, patched_absent by exact Hnone.
  apply filter_all. intros l Hl.
  pose proof (wf_links_valid Hwf) as Hv. rewrite Forall_forall in Hv.
  now apply Hv.
Qed.

(** X8.  A frequency edit ([updateTower id {freqStr: f}]) never adds,
    drops, renumbers, reorders or moves a tower: the ids and the positions
    of the towers are the same lists as before; a tower numbered [id] now
    reads [f]; the other ids resolve to the same tower; the link counter is
    kept and the link selection cleared; and in a well-formed store an edit
    of an id that no tower carries changes neither towers nor links.  Both
    implementations. *)
Theorem X8_updateTower_towers :
  freqEditFrame App.freqDiffers App.updateTower
  /\ freqEditFrame Part000.freqInvalid Part000.updateTower.
Proof. split; apply freqEditFrame_generic. Qed.

(** X8 on the chain 1 - 2 - 3, where no tower is numbered 7. *)
Lemma X8_updateTower_towers_witness :
  wellFormed App.freqDiffers Sample.chain
  /\ findTower (towers Sample.chain) 7 = None
  /\ towers (App.updateTower 7 (Patch.ofFreq "2.4 GHz") Sample.chain)
     = towers Sample.chain
  /\ links (App.updateTower 7 (Patch.ofFreq "2.4 GHz") Sample.chain)
     = links Sample.chain.
Proof.
  assert (Hwf : wellFormed App.freqDiffers Sample.chain).
  { apply (App_reachable_wellFormed RefMath.lib).
    unfold Sample.chain, Sample.threeTowers, Sample.twoTowers, Sample.empty.
    repeat (first [ apply App.reach_createLink
                  | apply (App.reach_addTower (M := RefMath.lib))
                  | apply App.reach_init ]). }
  assert (Hn : findTower (towers Sample.chain) 7 = None)
    by (vm_compute; reflexivity).
  split; [exact Hwf|]. split; [exact Hn|].
  exact (proj2 (proj2 (proj2 (proj2 (proj2 (proj2
           (proj1 X8_updateTower_towers 7 "2.4 GHz"%string Sample.chain))))))
           Hwf Hn).
Defined.

(* ================================================================== *)
(** * The marker click handler *)
(* ================================================================== *)

Lemma createLink_selection (mismatch : Tower.t -> Tower.t -> bool)
    (aId bId : nat) (v w : option nat) (st : store) :
  setSelectedTower v (snd (createLink mismatch aId bId (setSelectedTower w st)))
  = setSelectedTower v (snd (createLink mismatch aId bId st)).
Proof.
  unfold createLink. destruct st as [ts ls sT sL msg n].
  cbn [setSelectedTower towers links].
  destruct (aId =? bId)%nat; [reflexivity|].
  destruct (findTower ts aId) as [a|]; [|reflexivity].
  destruct (findTower ts bId) as [b|]; [|reflexivity].
  destruct (mismatch a b); [reflexivity|].
  destruct (existsb (samePair aId bId) ls); reflexivity.
Qed.

Lemma clickProtocol_generic (mismatch : Tower.t -> Tower.t -> bool) :
  clickProtocol (createLink mismatch).
Proof.
  intros tid st. split.
  { destruct (markerClick_cases mismatch tid st) as [[_ [_ H]]|[s [_ [_ [_ E]]]]];
      [exact H|].
    rewrite E. destruct (snd (createLink mismatch s tid st)) eqn:Es.
    pose proof (createLink_towers mismatch s tid st) as Ht.
    rewrite Es in Ht. exact Ht. }
  split.
  { intros Hs. unfold markerClick. now rewrite Hs. }
  assert (Hsel : forall v, selectedTower (setSelectedTower v st) = v)
    by (intros v; destruct st; reflexivity).
  split.
  { intros Hs Ht. unfold markerClick at 2. rewrite Hs.
    unfold markerClick. rewrite Hsel.
    destruct tid as [|k]; [lia|]. rewrite Nat.eqb_refl.
    destruct st; cbn in *. now subst. }
  intros other Hs Ht Hne. unfold markerClick at 2. rewrite Hs.
  unfold markerClick. rewrite Hsel.
  destruct tid as [|k]; [lia|].
  rewrite (proj2 (Nat.eqb_neq _ _) Hne).
  apply createLink_selection.
Qed.

Lemma App_reachable_select (M : MathLib) (v : option nat) (st : store) :
  App.reachable st -> App.reachable (setSelectedTower v st).
Proof.
  intros H.
  replace (setSelectedTower v st)
    with (setMessage (message st)
            (setSelectedLink (selectedLink st) (setSelectedTower v st)))
    by (destruct st; reflexivity).
  now apply App.reach_display.
Qed.

Lemma Part000_reachable_select (M : MathLib) (v : option nat) (st : store) :
  Part000.reachable st -> Part000.reachable (setSelectedTower v st).
Proof.
  intros H.
  replace (setSelectedTower v st)
    with (setMessage (message st)
            (setSelectedLink (selectedLink st) (setSelectedTower v st)))
    by (destruct st; reflexivity).
  now apply Part000.reach_display.
Qed.

(** X10.  The marker click handler (App.js 281-292, part_000 324-335).
    Towers never change.  With no tower selected a click only selects the
    clicked tower; a second click on the same tower puts the store back as
    it was; a click on another tower is one call of [createLink] from the
    first tower to the second, after which no tower is selected.  A click
    leads from reachable stores to reachable stores.  Tower ids are at least
    1, as [addTower] issues them: the handler tests the selection for
    truthiness. *)
Theorem X10_markerClick_protocol :
  forall M : MathLib,
    clickProtocol App.createLink
    /\ clickProtocol Part000.createLink
    /\ (forall tid st, App.reachable st ->
                       App.reachable (markerClick App.createLink tid st))
    /\ (forall tid st, Part000.reachable st ->
                       Part000.reachable
                         (markerClick Part000.createLink tid st)).
Proof.
  intros M. split; [apply clickProtocol_generic|].
  split; [apply clickProtocol_generic|]. split.
  - intros tid st H. unfold markerClick.
    destruct (selectedTower st) as [[|s]|];
      try (now apply App_reachable_select).
    destruct (S s =? tid)%nat; apply App_reachable_select; [exact H|].
    now apply App.reach_createLink.
  - intros tid st H. unfold markerClick.
    destruct (selectedTower st) as [[|s]|];
      try (now apply Part000_reachable_select).
    destruct (S s =? tid)%nat; apply Part000_reachable_select; [exact H|].
    now apply Part000.reach_createLink.
Qed.

(** X10 on two fresh towers: clicking tower 1 and then tower 2 links them. *)
Lemma X10_markerClick_protocol_witness :
  selectedTower Sample.twoTowers = None
  /\ markerClick App.createLink 2 (markerClick App.createLink 1 Sample.twoTowers)
     = setSelectedTower None (snd (App.createLink 1 2 Sample.twoTowers))
  /\ markerClick App.createLink 1 (markerClick App.createLink 1 Sample.twoTowers)
     = Sample.twoTowers.
Proof.
  assert (Hs : selectedTower Sample.twoTowers = None) by reflexivity.
  destruct (proj1 (X10_markerClick_protocol RefMath.lib) 1 Sample.twoTowers)
    as [_ [_ [H3 H4]]].
  split; [exact Hs|]. split.
  - exact (H4 2 Hs (le_n 1) ltac:(discriminate)).
  - exact (H3 Hs (le_n 1)).
Defined.

(* ================================================================== *)
(** * onLinkClick *)
(* ================================================================== *)

Lemma withFresnel_sameLink (f : Fresnel.t) (lid : nat) (x : Link.t) :
  sameLink x (withFresnel f lid x).
Proof. unfold withFresnel. destruct (Link.id x =? lid)%nat; repeat split. Qed.

Lemma withFresnel_twice (f : Fresnel.t) (lid : nat) (x : Link.t) :
  withFresnel f lid (withFresnel f lid x) = withFresnel f lid x.
Proof.
  unfold withFresnel. destruct (Link.id x =? lid)%nat eqn:E; cbn [Link.id].
  - now rewrite E.
  - now rewrite E.
Qed.

Lemma withFresnel_Forall2 (f : Fresnel.t) (lid : nat) (ls : list Link.t) :
  Forall2 sameLink ls (map (withFresnel f lid) ls).
Proof.
  induction ls as [|x ls IH]; constructor; [apply withFresnel_sameLink | exact IH].
Qed.

Lemma Forall2_sameLink_refl (ls : list Link.t) : Forall2 sameLink ls ls.
Proof. induction ls; constructor; [apply sameLink_refl | assumption]. Qed.

(** The shape shared by the two [onLinkClick]: with both endpoints found,
    the links are rewritten by [withFresnel f]; otherwise only the selection
    changes. *)
Lemma cachesFresnel_generic (click : Link.t -> store -> store)
    (data : Link.t -> Tower.t -> Tower.t -> Fresnel.t)
    (fresnelOk : Link.t -> Tower.t -> Tower.t -> Fresnel.t -> Prop) :
  (forall l st,
     click l st
     = match findTower (towers st) (Link.aId l),
             findTower (towers st) (Link.bId l) with
       | Some a, Some b =>
           setLinks (map (withFresnel (data l a b) (Link.id l)))
                    (setSelectedLink (Some (Link.id l)) st)
       | _, _ => setSelectedLink (Some (Link.id l)) st
       end) ->
  (forall l a b, fresnelOk l a b (data l a b)) ->
  cachesFresnel click fresnelOk.
Proof.
  intros Hclick Hok l st.
  assert (Hmiss : findTower (towers st) (Link.aId l) = None
                  \/ findTower (towers st) (Link.bId l) = None ->
                  click l st = setSelectedLink (Some (Link.id l)) st).
  { intros H. rewrite Hclick. destruct H as [-> | ->]; [reflexivity|].
    now destruct (findTower (towers st) (Link.aId l)). }
  destruct (findTower (towers st) (Link.aId l)) as [a|] eqn:Ha;
    [destruct (findTower (towers st) (Link.bId l)) as [b|] eqn:Hb|].
  - assert (E : click l st
                = setLinks (map (withFresnel (data l a b) (Link.id l)))
                           (setSelectedLink (Some (Link.id l)) st))
      by (rewrite Hclick, Ha, Hb; reflexivity).
    rewrite (Hclick l (click l st)). rewrite E.
    cbn [towers setLinks setSelectedLink]. rewrite Ha, Hb.
    cbn [towers links linkId selectedTower selectedLink message setLinks
         setSelectedLink].
    do 5 (split; [reflexivity|]).
    split; [apply withFresnel_Forall2|].
    split.
    { intros x Hx Hne. apply in_map_iff. exists x. split; [|exact Hx].
      unfold withFresnel. apply Nat.eqb_neq in Hne. now rewrite Hne. }
    split.
    { intros a' b' x Ha' Hb' Hx Hid. inversion Ha'; inversion Hb'; subst a' b'.
      apply in_map_iff in Hx. destruct Hx as [y [<- Hy]].
      assert (Ey : Link.id y = Link.id l)
        by (rewrite <- Hid; symmetry; apply withFresnel_sameLink).
      unfold withFresnel. apply Nat.eqb_eq in Ey. rewrite Ey.
      eexists. split; [reflexivity | apply Hok]. }
    split; [intros [H|H]; discriminate|].
    unfold setLinks, setSelectedLink.
    cbn [towers links linkId selectedTower selectedLink message].
    f_equal. rewrite map_map. apply map_ext. intros x.
    apply withFresnel_twice.
  - rewrite (Hclick l (click l st)), (Hmiss (or_intror eq_refl)).
    cbn [towers setSelectedLink]. rewrite Ha, Hb.
    do 5 (split; [reflexivity|]).
    split; [apply Forall2_sameLink_refl|].
    split; [intros x Hx _; exact Hx|].
    split; [intros a' b' x Ha' Hb'; discriminate|].
    split; reflexivity.
  - rewrite (Hclick l (click l st)), (Hmiss (or_introl eq_refl)).
    cbn [towers setSelectedLink]. rewrite Ha.
    do 5 (split; [reflexivity|]).
    split; [apply Forall2_sameLink_refl|].
    split; [intros x Hx _; exact Hx|].
    split; [intros a' b' x Ha'; discriminate|].
    split; reflexivity.
Qed.

(** X9.  A click on a link selects it and recomputes its Fresnel data from
    the current towers: towers, counter, tower selection and message stay;
    every link keeps its id, endpoints and frequency text; links with
    another id are untouched; the clicked link gets a polygon of 181 points
    with the distance, the midpoint radius and its frequency text; with a
    missing endpoint only the selection changes; clicking twice is the same
    as clicking once.  Both implementations. *)
Theorem X9_onLinkClick_caches :
  forall M : MathLib,
    cachesFresnel App.onLinkClick fresnelFor
    /\ cachesFresnel Part000.onLinkClick fresnelFor.
Proof.
  intros M. split.
  - apply (cachesFresnel_generic App.onLinkClick
             (fun l a b =>
                Fresnel.mk
                  (App.generateFresnelEllipse (Tower.lat a) (Tower.lng a)
                     (Tower.lat b) (Tower.lng b)
                     (snd (computeSimpleFresnel (Tower.pos a) (Tower.pos b)
                             (parseFreqHz (Link.freqStr l)))
                      * App.SCALE_FACTOR) None)
                  (snd (computeSimpleFresnel (Tower.pos a) (Tower.pos b)
                          (parseFreqHz (Link.freqStr l))))
                  (fst (computeSimpleFresnel (Tower.pos a) (Tower.pos b)
                          (parseFreqHz (Link.freqStr l))))
                  (Link.freqStr l))).
    + intros l st. unfold App.onLinkClick.
      destruct (findTower (towers st) (Link.aId l));
        [destruct (findTower (towers st) (Link.bId l))|]; reflexivity.
    + intros l a b. unfold fresnelFor. cbn [Fresnel.polygonPoints
        Fresnel.distance Fresnel.rMidMeters Fresnel.freq].
      split; [|repeat split].
      unfold App.generateFresnelEllipse. now rewrite ellipseLoop_length.
  - apply (cachesFresnel_generic Part000.onLinkClick
             (fun l a b =>
                Fresnel.mk
                  (Part000.generateFresnelEllipse (Tower.lat a) (Tower.lng a)
                     (Tower.lat b) (Tower.lng b)
                     (snd (computeSimpleFresnel (Tower.pos a) (Tower.pos b)
                             (parseFreqHz (Link.freqStr l)))
                      * Part000.SCALE_FACTOR) (Some 180))
                  (snd (computeSimpleFresnel (Tower.pos a) (Tower.pos b)
                          (parseFreqHz (Link.freqStr l))))
                  (fst (computeSimpleFresnel (Tower.pos a) (Tower.pos b)
                          (parseFreqHz (Link.freqStr l))))
                  (Link.freqStr l))).
    + intros l st. unfold Part000.onLinkClick.
      destruct (findTower (towers st) (Link.aId l));
        [destruct (findTower (towers st) (Link.bId l))|]; reflexivity.
    + intros l a b. unfold fresnelFor. cbn [Fresnel.polygonPoints
        Fresnel.distance Fresnel.rMidMeters Fresnel.freq].
      split; [|repeat split].
      unfold Part000.generateFresnelEllipse. now rewrite ellipseLoop_length.
Qed.

(* ================================================================== *)
(** * The exact test of App.js against the tolerance of part_000 *)
(* ================================================================== *)

Lemma compare_self_finite (s : bool) (m : positive) (e : Z) :
  SFcompare (S754_finite s m e) (S754_finite s m e) = Some Eq.
Proof.
  destruct s; simpl; rewrite Z.compare_refl;
    [rewrite Pos.compare_cont_refl | rewrite Pos.compare_cont_refl];
    reflexivity.
Qed.

Lemma sub_self (x : num) : isFinite x = true -> x - x = pzero.
Proof.
  destruct x as [s|s| |s m e]; intros H; try discriminate H.
  - now destruct s.
  - unfold sub, SFsub. rewrite Z.sub_diag. reflexivity.
Qed.

Lemma leb_pzero (t : num) :
  isNaN t = false -> signbit t = false -> (pzero <=? t) = true.
Proof. destruct t as [s|s| |s m e]; simpl; intros; subst; easy. Qed.

Lemma withinTolerance_self (x : num) :
  isFinite x = true -> (pzero <=? x) = true -> withinTolerance x x = true.
Proof.
  intros Hf Hp. unfold withinTolerance. rewrite (sub_self x Hf).
  destruct x as [s|s| |s m e]; try discriminate Hf.
  - destruct s; vm_compute; reflexivity.
  - destruct s; [discriminate Hp|].
    unfold max, ltb, SFltb. rewrite compare_self_finite.
    rewrite c_1em6_finite. unfold mul, SFmul. cbn [xorb abs SFabs pzero].
    apply leb_pzero.
    + apply binary_round_aux_not_NaN. lia.
    + apply binary_round_aux_sign. lia.
Qed.

(** X13.  What App.js accepts at a finite frequency that is not negative,
    part_000 accepts as well: two towers whose frequencies are [===] pass
    [canLink].  At two equal infinite or negative frequencies the
    tolerance test fails, so neither hypothesis can be dropped. *)
Theorem X13_exact_match_passes_canLink :
  forall a b : Tower.t,
    App.freqDiffers a b = false ->
    isFinite (towerFreq a) = true ->
    (pzero <=? towerFreq a) = true ->
    Part000.canLink a b = true.
Proof.
  intros a b Hd Hf Hp. rewrite canLink_withinTolerance.
  unfold App.freqDiffers, neqb in Hd. fold (towerFreq a) (towerFreq b) in Hd.
  apply negb_false_iff in Hd. unfold eqb, SFeqb in Hd.
  destruct (SFcompare (towerFreq a) (towerFreq b)) as [[]|] eqn:Ec;
    try discriminate Hd.
  destruct (compare_Eq_zero_or_same _ _ Ec) as [E|[[s Ea] [s' Eb]]].
  - rewrite <- E. now apply withinTolerance_self.
  - rewrite Ea, Eb. destruct s, s'; vm_compute; reflexivity.
Qed.

(** X13 at 5 GHz written in two ways; at "-5 GHz" twice the exact test
    passes and the tolerance test does not. *)
Lemma X13_exact_match_passes_canLink_witness :
  App.freqDiffers (Tower.mk 1 pzero pzero "5 GHz")
                  (Tower.mk 2 pzero pzero "5000 MHz") = false
  /\ Part000.canLink (Tower.mk 1 pzero pzero "5 GHz")
                     (Tower.mk 2 pzero pzero "5000 MHz") = true
  /\ App.freqDiffers (Tower.mk 1 pzero pzero "-5 GHz")
                     (Tower.mk 2 pzero pzero "-5 GHz") = false
  /\ Part000.canLink (Tower.mk 1 pzero pzero "-5 GHz")
                     (Tower.mk 2 pzero pzero "-5 GHz") = false.
Proof.
  assert (H : App.freqDiffers (Tower.mk 1 pzero pzero "5 GHz")
                (Tower.mk 2 pzero pzero "5000 MHz") = false)
    by (vm_compute; reflexivity).
  split; [exact H|].
  split; [|split; vm_compute; reflexivity].
  apply (X13_exact_match_passes_canLink _ _ H); vm_compute; reflexivity.
Defined.

(* ================================================================== *)
(** * Distances at the edges *)
(* ================================================================== *)

Lemma finite_times_pzero (x : num) :
  isFinite x = true -> pzero + x * pzero * pzero = pzero.
Proof.
  destruct x as [s|s| |s m e]; intros H; try discriminate H;
    destruct s; reflexivity.
Qed.

(** X12.  The distance from a point to itself is [+0], and so is the
    Fresnel radius of a link between two towers at the same place, whatever
    the frequency: [fresnelRadius] returns 0 before dividing by the zero
    distance.  The point has finite coordinates; the library maps
    [atan2(+0, 1)] to [+0] and gives the cosine of the latitude a finite
    square, as every engine does. *)
Theorem X12_distance_to_itself :
  forall (M : MathLib) (L : MathLaws M) (p : LatLng.t) (freqHz : num),
    Math_atan2 pzero c_1 = pzero ->
    isFinite (LatLng.lat p) = true ->
    isFinite (LatLng.lng p) = true ->
    isFinite (Math_cos ((LatLng.lat p * PI) / c_180)
              * Math_cos ((LatLng.lat p * PI) / c_180)) = true ->
    distanceMeters p p = pzero
    /\ computeSimpleFresnel p p freqHz = (pzero, pzero).
Proof.
  intros M L p freqHz Hat Hlat Hlng Hcos.
  assert (Hd : distanceMeters p p = pzero).
  { unfold distanceMeters. cbv zeta.
    rewrite (sub_self _ Hlat), (sub_self _ Hlng).
    replace ((pzero * PI / c_180) / c_2) with pzero
      by (vm_compute; reflexivity).
    rewrite sin_pzero.
    replace (pzero * pzero) with pzero by reflexivity.
    rewrite (finite_times_pzero _ Hcos).
    replace (sqrt pzero) with pzero by reflexivity.
    replace (sqrt (c_1 - pzero)) with c_1 by (vm_compute; reflexivity).
    rewrite Hat. vm_compute. reflexivity. }
  split; [exact Hd|].
  unfold computeSimpleFresnel. cbv zeta. rewrite Hd.
  replace (pzero / c_2) with pzero by (vm_compute; reflexivity).
  reflexivity.
Qed.

(** X12 at the first sample position, with the reference library. *)
Lemma X12_distance_to_itself_witness :
  distanceMeters (M := RefMath.lib) Sample.pos1 Sample.pos1 = pzero
  /\ computeSimpleFresnel (M := RefMath.lib) Sample.pos1 Sample.pos1 NaN
     = (pzero, pzero).
Proof.
  apply (X12_distance_to_itself RefMath.lib RefMath_laws Sample.pos1 NaN);
    vm_compute; reflexivity.
Defined.

(** X14.  A coordinate that is NaN makes the distance NaN, and with it the
    Fresnel radius: the helpers never turn a missing coordinate into a
    number. *)
Theorem X14_distance_NaN :
  forall (M : MathLib) (L : MathLaws M) (a b : LatLng.t) (freqHz : num),
    isNaN (LatLng.lat a) = true \/ isNaN (LatLng.lng a) = true
    \/ isNaN (LatLng.lat b) = true \/ isNaN (LatLng.lng b) = true ->
    distanceMeters a b = NaN
    /\ computeSimpleFresnel a b freqHz = (NaN, NaN).
Proof.
  intros M L a b freqHz H.
  assert (Hd : distanceMeters a b = NaN).
  { unfold distanceMeters. cbv zeta.
    destruct a as [la na], b as [lb nb]. cbn [LatLng.lat LatLng.lng] in *.
    assert (Hm : forall x y, x = NaN \/ y = NaN -> x * y = NaN).
    { intros x y [->| ->]; [reflexivity | apply mul_NaN_r]. }
    assert (Hfin : forall aa, aa = NaN ->
              c_R * (c_2 * Math_atan2 (sqrt aa) (sqrt (c_1 - aa))) = NaN).
    { intros aa ->. replace (sqrt NaN) with NaN by reflexivity.
      rewrite atan2_NaN_l. reflexivity. }
    apply Hfin.
    destruct H as [H|[H|[H|H]]]; apply isNaN_true in H; subst.
    - replace (NaN * PI / c_180) with NaN by reflexivity.
      rewrite cos_NaN. exact (add_NaN_r _).
    - rewrite sub_NaN_r. replace (NaN * PI / c_180 / c_2) with NaN
        by reflexivity.
      rewrite sin_NaN, !mul_NaN_r. exact (add_NaN_r _).
    - replace (NaN - la) with NaN by reflexivity.
      replace (NaN * PI / c_180 / c_2) with NaN by reflexivity.
      rewrite sin_NaN. reflexivity.
    - replace (NaN - na) with NaN by reflexivity.
      replace (NaN * PI / c_180 / c_2) with NaN by reflexivity.
      rewrite sin_NaN, !mul_NaN_r. exact (add_NaN_r _). }
  split; [exact Hd|].
  unfold computeSimpleFresnel. cbv zeta. rewrite Hd.
  replace (NaN / c_2) with NaN by reflexivity.
  unfold fresnelRadius. replace (NaN + NaN === pzero) with false by reflexivity.
  rewrite mul_NaN_r. reflexivity.
Qed.

(** X14 with an unknown latitude. *)
Lemma X14_distance_NaN_witness :
  distanceMeters (M := RefMath.lib) (LatLng.mk NaN pzero) Sample.pos2 = NaN
  /\ computeSimpleFresnel (M := RefMath.lib) (LatLng.mk NaN pzero)
       Sample.pos2 c_1e9 = (NaN, NaN).
Proof.
  apply (X14_distance_NaN RefMath.lib RefMath_laws).
  left. reflexivity.
Defined.

(* ================================================================== *)
(** * parseFreqHz: case and surrounding white space *)
(* ================================================================== *)

Lemma isWhite_lowerChar (c : ascii) : isWhite (lowerChar c) = isWhite c.
Proof. destruct c as [[] [] [] [] [] [] [] []]; reflexivity. Qed.

Lemma trimStart_lower (s : chars) :
  trimStart (map lowerChar s) = map lowerChar (trimStart s).
Proof.
  induction s as [|c r IH]; [reflexivity|]. cbn [map trimStart].
  rewrite isWhite_lowerChar. now destruct (isWhite c).
Qed.

Lemma trim_lower (s : chars) :
  toLowerCase (trim s) = trim (map lowerChar s).
Proof.
  unfold toLowerCase, trim, trimEnd.
  now rewrite trimStart_lower, <- map_rev, trimStart_lower, map_rev.
Qed.

Lemma trimStart_white (pre s : chars) :
  forallb isWhite pre = true -> trimStart (pre ++ s)%list = trimStart s.
Proof.
  induction pre as [|c r IH]; [reflexivity|]. cbn [forallb app trimStart].
  intros H. apply andb_prop in H. destruct H as [Hc Hr].
  rewrite Hc. now apply IH.
Qed.

Lemma trimEnd_white (s post : chars) :
  forallb isWhite post = true -> trimEnd (s ++ post)%list = trimEnd s.
Proof.
  intros H. unfold trimEnd. rewrite rev_app_distr, trimStart_white;
    [reflexivity|].
  rewrite forallb_forall in *. intros c Hc. apply H. now apply in_rev.
Qed.

Lemma trim_white (pre s post : chars) :
  forallb isWhite pre = true -> forallb isWhite post = true ->
  trim (pre ++ s ++ post)%list = trim s.
Proof.
  intros Hpre Hpost. unfold trim. rewrite (trimStart_white pre _ Hpre).
  induction s as [|c r IH].
  - cbn [app]. rewrite <- (app_nil_r post), (trimStart_white post [] Hpost).
    reflexivity.
  - cbn [app trimStart]. destruct (isWhite c); [exact IH|].
    exact (trimEnd_white (c :: r) post Hpost).
Qed.

Lemma parseFreqHz_trimmed (f f' : string) :
  toLowerCase (trim (of_string f)) = toLowerCase (trim (of_string f')) ->
  parseFreqHz f = parseFreqHz f'.
Proof. intros E. now rewrite !parseFreqHz_unfold, E. Qed.

(** X11.  [parseFreqHz] reads a frequency text without regard to the case
    of its letters or to white space around it: two texts that agree once
    lower-cased, one of them wrapped in any white space, parse to the same
    number (or both to NaN). *)
Theorem X11_parseFreqHz_insensitive :
  forall (pre post : chars) (s s' : string),
    forallb isWhite pre = true ->
    forallb isWhite post = true ->
    toLowerCase (of_string s) = toLowerCase (of_string s') ->
    parseFreqHz (string_of_list_ascii (pre ++ of_string s ++ post))
    = parseFreqHz s'.
Proof.
  intros pre post s s' Hpre Hpost E. apply parseFreqHz_trimmed.
  rewrite of_string_of_list, (trim_white pre _ post Hpre Hpost).
  rewrite !trim_lower. unfold toLowerCase in E. now rewrite E.
Qed.

(** X11 on " 5 GHz" followed by a tab, against "5 ghz". *)
Lemma X11_parseFreqHz_insensitive_witness :
  parseFreqHz (string_of_list_ascii
                 (of_string " " ++ of_string "5 GHz" ++ ["009"%char]))
  = parseFreqHz "5 ghz".
Proof.
  apply (X11_parseFreqHz_insensitive (of_string " ") ["009"%char]
           "5 GHz" "5 ghz"); reflexivity.
Defined.

(* ================================================================== *)
(** * The external format of frequencies *)
(* ================================================================== *)





































(** C7 (as stated) fails.  The text "5 MHz." is not of the form
    "<number>[ ]<unit>", yet it resolves to a number, the one that "5 GHz"
    resolves to: the point hides the unit and the bare 5 counts as GHz.  The
    match checks of both implementations pass, and the two towers are
    linked.  Likewise "5 kHz" resolves to 5 Hz. *)
Lemma C7_counterexample :
  isNaN (parseFreqHz "5 MHz.") = false
  /\ parseFreqHz "5 MHz." = parseFreqHz "5 GHz"
  /\ parseFreqHz "5 kHz" = of_Z 5
  /\ App.freqDiffers (Tower.mk 1 pzero pzero "5 MHz.")
                     (Tower.mk 2 pzero pzero "5 GHz") = false
  /\ Part000.canLink (Tower.mk 1 pzero pzero "5 MHz.")
                     (Tower.mk 2 pzero pzero "5 GHz") = true
  /\ links (snd (App.createLink 1 2
                   (App.updateTower 1 (Patch.ofFreq "5 MHz.")
                      Sample.twoTowers)))
     = [Link.mk 1 1 2 "5 MHz." None]
  /\ links (snd (Part000.createLink 1 2
                   (Part000.updateTower 1 (Patch.ofFreq "5 MHz.")
                      Sample.twoTowers)))
     = [Link.mk 1 1 2 "5 MHz." None].
Proof. repeat split; vm_compute; reflexivity. Qed.
